(** * BalanceCalc: the shared meal-card calculator of [main.py]

    A shallow embedding of the request handlers of [main.py] and the
    properties of its calculation engine, its quick-calculation adapter and
    its history and defaults views.

    - Python's [float] is IEEE 754 binary64; it is modelled by Rocq's primitive
      [float], which is the same format with the same rounding, so sums and
      differences evaluate to the very values CPython computes.
    - The SQLAlchemy session is modelled by the contents of its two tables,
      passed explicitly; a handler returns its response and the tables as they
      are once the request is over.
    - [raise HTTPException(...)] is the [Raise] response.  Two errors of the
      store reach the caller as they are: the [IntegrityError] of a commit
      that would put NULL in a NOT NULL column, which is what SQLite makes of
      a NaN, and the [OverflowError] of a query bound to an integer outside
      64 bits.  A handler that raises leaves the tables as they were.
    - A [Float] column gives back the number it was given, except that the
      sign of a zero is lost: SQLite keeps a whole number as an integer.
    - [datetime.utcnow()] is read once per insert; the value read is the
      argument [now] of a handler that inserts.
    - A handler is modelled as the Python function it is: how FastAPI reads
      the request into its arguments and renders the value it returns is not
      part of the model.

    The statements on the order of amounts ([x >= 0], [a <= b]) are proved
    for binary64 itself, from the specification of the primitive operations
    ([SpecFloat]): the second half of the definitions and the first half of
    the properties read the numbers of the format as integers and show that
    rounding to nearest keeps their order. *)

From Stdlib Require Import ZArith List String Bool Lia Permutation Sorted.
From Stdlib Require Import Floats.
Import ListNotations.

Local Open Scope string_scope.
Local Open Scope Z_scope.

(** ** Data model *)

(** A [DateTime] column: microseconds since the epoch. *)
Definition datetime := Z.

(** Row of the table [calculation_history]. *)
Module CalculationHistory.
Record t := mk {
  id : Z;
  initial_total : float;
  my_initial : float;
  my_charge : float;
  final_total : float;
  others_money : float;
  my_remaining : float;
  my_consumed : float;
  note : string;
  created_at : datetime
}.
End CalculationHistory.

(** Row of the table [saved_settings]. *)
Module SavedSettings.
Record t := mk {
  id : Z;
  key : string;
  value : float;
  updated_at : datetime
}.
End SavedSettings.

(** Request body of [/api/calculate/]; [note] is [Optional[str]]. *)
Module CardCalculation.
Record t := mk {
  initial_total : float;
  my_initial : float;
  my_charge : float;
  final_total : float;
  note : option string
}.
End CardCalculation.

(** Response body of [/api/calculate/]. *)
Module CalculationResult.
Record t := mk {
  id : option Z;
  others_money : float;
  my_remaining : float;
  my_consumed : float;
  calculation_steps : list string;
  created_at : option datetime
}.
End CalculationResult.

(** The dictionary [get_defaults] returns. *)
Module Defaults.
Record t := mk {
  others_money : float;
  my_remaining : float
}.
End Defaults.

(** The two tables behind a [Session], rows in insertion (rowid) order. *)
Record Session := mkSession {
  calculation_history : list CalculationHistory.t;
  saved_settings : list SavedSettings.t
}.

Record HTTPException := mkHTTPException {
  status_code : Z;
  detail : string
}.

(** What a handler does: return a value, raise an [HTTPException], or let an
    error of the store through. *)
Inductive response (A : Type) : Type :=
| Return (a : A)
| Raise (e : HTTPException)
| IntegrityError
| OverflowError.
Arguments Return {A} a.
Arguments Raise {A} e.
Arguments IntegrityError {A}.
Arguments OverflowError {A}.

Definition is_return {A} (r : response A) : bool :=
  match r with Return _ => true | _ => false end.

(** ** The ledger store *)

(** An integer SQLite can be given: 64 bits, signed.  Binding any other
    raises [OverflowError]. *)
Definition fits_int64 (n : Z) : bool := (- 2 ^ 63 <=? n) && (n <? 2 ^ 63).

(** What a [Float] column gives back for the number it was given: the number
    itself, and 0.0 for -0.0. *)
Definition stored_float (x : float) : float := if is_zero x then 0%float else x.

(** The row the table holds for the row it was given. *)
Definition stored_record (r : CalculationHistory.t) : CalculationHistory.t :=
  CalculationHistory.mk (CalculationHistory.id r)
    (stored_float (CalculationHistory.initial_total r))
    (stored_float (CalculationHistory.my_initial r))
    (stored_float (CalculationHistory.my_charge r))
    (stored_float (CalculationHistory.final_total r))
    (stored_float (CalculationHistory.others_money r))
    (stored_float (CalculationHistory.my_remaining r))
    (stored_float (CalculationHistory.my_consumed r))
    (CalculationHistory.note r)
    (CalculationHistory.created_at r).

(** [nullable=False] on the seven [Float] columns: a NaN is bound as NULL. *)
Definition not_null (r : CalculationHistory.t) : bool :=
  negb (is_nan (CalculationHistory.initial_total r))
  && negb (is_nan (CalculationHistory.my_initial r))
  && negb (is_nan (CalculationHistory.my_charge r))
  && negb (is_nan (CalculationHistory.final_total r))
  && negb (is_nan (CalculationHistory.others_money r))
  && negb (is_nan (CalculationHistory.my_remaining r))
  && negb (is_nan (CalculationHistory.my_consumed r)).

(** An [Integer] primary key in SQLite is the rowid: a new row gets one more
    than the largest key in the table, and 1 in an empty table. *)
Definition max_id (rows : list CalculationHistory.t) : Z :=
  fold_right (fun r m => Z.max (CalculationHistory.id r) m) 0 rows.

Definition next_id (rows : list CalculationHistory.t) : Z := max_id rows + 1.

Definition max_setting_id (rows : list SavedSettings.t) : Z :=
  fold_right (fun r m => Z.max (SavedSettings.id r) m) 0 rows.

(** [db.query(CalculationHistory).order_by(created_at.desc()).first()]:
    a row whose [created_at] no other row exceeds.  Among rows of equal
    [created_at] SQL leaves the choice open; the scan keeps the earliest
    inserted one. *)
Fixpoint latest_of (rows : list CalculationHistory.t) : option CalculationHistory.t :=
  match rows with
  | [] => None
  | r :: rest =>
      match latest_of rest with
      | None => Some r
      | Some r' =>
          if CalculationHistory.created_at r <? CalculationHistory.created_at r'
          then Some r' else Some r
      end
  end.

Definition latest (db : Session) : option CalculationHistory.t :=
  latest_of (calculation_history db).

(** [db.query(CalculationHistory).filter(CalculationHistory.id == record_id).first()] *)
Definition find_by_id (record_id : Z) (db : Session) : option CalculationHistory.t :=
  find (fun r => CalculationHistory.id r =? record_id) (calculation_history db).

(** [db.query(SavedSettings).filter(SavedSettings.key == key).first()] *)
Definition find_setting (key : string) (db : Session) : option SavedSettings.t :=
  find (fun s => String.eqb (SavedSettings.key s) key) (saved_settings db).

Definition get_saved_value (db : Session) (key : string) (default : float) : float :=
  match find_setting key db with
  | Some setting => SavedSettings.value setting
  | None => default
  end.

(** [setting.value = value] and [setting.updated_at = datetime.utcnow()] on
    the row that [.first()] found: the first row of the key. *)
Fixpoint update_first (now : datetime) (key : string) (value : float)
    (rows : list SavedSettings.t) : list SavedSettings.t :=
  match rows with
  | [] => []
  | s :: rest =>
      if String.eqb (SavedSettings.key s) key
      then SavedSettings.mk (SavedSettings.id s) (SavedSettings.key s) value now :: rest
      else s :: update_first now key value rest
  end.

(** [save_value]; the column [value] is [nullable=False], so the commit of a
    NaN raises and nothing is written. *)
Definition save_value (now : datetime) (db : Session) (key : string) (value : float)
  : response unit * Session :=
  match find_setting key db with
  | Some _ =>
      if is_nan value then (IntegrityError, db)
      else
        (Return tt,
         mkSession (calculation_history db)
           (update_first now key (stored_float value) (saved_settings db)))
  | None =>
      if is_nan value then (IntegrityError, db)
      else
        (Return tt,
         mkSession (calculation_history db)
           (saved_settings db
              ++ [SavedSettings.mk (max_setting_id (saved_settings db) + 1) key
                    (stored_float value) now])%list)
  end.

(** [db.add(record)] and [db.commit()]: the row is appended as the table
    holds it, or the commit fails and nothing is. *)
Definition add_and_commit (record : CalculationHistory.t) (db : Session)
  : option Session :=
  if not_null record
  then Some (mkSession (calculation_history db ++ [stored_record record])%list
               (saved_settings db))
  else None.

(** ** Handlers *)

Definition fallback_others_money : float := 7%float.

(** [GET /api/defaults/] *)
Definition get_defaults (db : Session) : Defaults.t :=
  match latest db with
  | Some latest =>
      Defaults.mk (CalculationHistory.others_money latest)
        (CalculationHistory.my_remaining latest)
  | None => Defaults.mk fallback_others_money 0%float
  end.

Definition detail_negative_amount : string := "所有金额都必须大于等于0".
Definition detail_initial_exceeds : string := "你的初始金额不能超过饭卡总额".
Definition detail_negative_remaining : string :=
  "计算结果显示你的余额为负数，请检查输入数据".
Definition detail_negative_consumed : string :=
  "计算结果显示你的消费为负数，请检查输入数据".
Definition detail_no_history : string := "没有找到历史数据，请使用完整计算".
Definition detail_not_found : string := "记录不存在".
Definition message_deleted : string := "记录已删除".
Definition message_cleared : string := "所有数据已清除".

Section Handlers.

(** How an f-string renders a float ([float.__repr__], a builtin). *)
Variable repr : float -> string.

(** The five f-strings of [calculate_money], in the order of the source. *)
Definition step_others (initial_total my_initial others_money : float) : string :=
  "别人的金额 = 饭卡初始总额 - 你的初始金额 = "
    ++ repr initial_total ++ " - " ++ repr my_initial ++ " = " ++ repr others_money.

Definition step_after_charge (my_initial my_charge my_after_charge : float) : string :=
  "你充值后的金额 = 你的初始金额 + 充值金额 = "
    ++ repr my_initial ++ " + " ++ repr my_charge ++ " = " ++ repr my_after_charge.

Definition step_total_after_charge (initial_total my_charge total_after_charge : float)
  : string :=
  "充值后饭卡总额 = 初始总额 + 充值金额 = "
    ++ repr initial_total ++ " + " ++ repr my_charge ++ " = " ++ repr total_after_charge.

Definition step_remaining (final_total others_money my_remaining : float) : string :=
  "你剩余的金额 = 打饭后总余额 - 别人的金额 = "
    ++ repr final_total ++ " - " ++ repr others_money ++ " = " ++ repr my_remaining.

Definition step_consumed (my_after_charge my_remaining my_consumed : float) : string :=
  "你消费的金额 = 充值后你的金额 - 你剩余的金额 = "
    ++ repr my_after_charge ++ " - " ++ repr my_remaining ++ " = " ++ repr my_consumed.

(** [POST /api/calculate/].  [a > b] on floats is [b <? a]. *)
Definition calculate_money (now : datetime) (data : CardCalculation.t) (db : Session)
  : response CalculationResult.t * Session :=
  let initial_total := CardCalculation.initial_total data in
  let my_initial := CardCalculation.my_initial data in
  let my_charge := CardCalculation.my_charge data in
  let final_total := CardCalculation.final_total data in
  if ((initial_total <? 0) || (my_initial <? 0) || (my_charge <? 0)
      || (final_total <? 0))%float
  then (Raise (mkHTTPException 400 detail_negative_amount), db)
  else if (initial_total <? my_initial)%float
  then (Raise (mkHTTPException 400 detail_initial_exceeds), db)
  else
    let steps : list string := [] in
    let others_money := (initial_total - my_initial)%float in
    let steps := (steps ++ [step_others initial_total my_initial others_money])%list in
    let my_after_charge := (my_initial + my_charge)%float in
    let steps :=
      (steps ++ [step_after_charge my_initial my_charge my_after_charge])%list in
    let total_after_charge := (initial_total + my_charge)%float in
    let steps :=
      (steps
         ++ [step_total_after_charge initial_total my_charge total_after_charge])%list in
    let my_remaining := (final_total - others_money)%float in
    let steps :=
      (steps ++ [step_remaining final_total others_money my_remaining])%list in
    let my_consumed := (my_after_charge - my_remaining)%float in
    let steps :=
      (steps ++ [step_consumed my_after_charge my_remaining my_consumed])%list in
    if (my_remaining <? 0)%float
    then (Raise (mkHTTPException 400 detail_negative_remaining), db)
    else if (my_consumed <? 0)%float
    then (Raise (mkHTTPException 400 detail_negative_consumed), db)
    else
      let history_record :=
        CalculationHistory.mk (next_id (calculation_history db))
          initial_total my_initial my_charge final_total
          others_money my_remaining my_consumed
          (match CardCalculation.note data with
           | Some s => s
           | None => EmptyString
           end)
          now in
      match add_and_commit history_record db with
      | None => (IntegrityError, db)
      | Some db' =>
          (Return
             (CalculationResult.mk (Some (CalculationHistory.id history_record))
                others_money my_remaining my_consumed steps
                (Some (CalculationHistory.created_at history_record))),
           db')
      end.

(** The request [quick_calculate] builds from the latest row. *)
Definition quick_request (latest : CalculationHistory.t)
    (charge_amount final_total : float) (note : string) : CardCalculation.t :=
  let others_money := CalculationHistory.others_money latest in
  let my_current_balance := CalculationHistory.my_remaining latest in
  let my_after_charge := (my_current_balance + charge_amount)%float in
  let initial_total := (others_money + my_current_balance)%float in
  let new_initial_total := (initial_total + charge_amount)%float in
  CardCalculation.mk new_initial_total my_current_balance charge_amount final_total
    (Some note).

(** [POST /api/quick_calculate/] *)
Definition quick_calculate (now : datetime) (charge_amount final_total : float)
    (note : string) (db : Session) : response CalculationResult.t * Session :=
  match latest db with
  | None => (Raise (mkHTTPException 400 detail_no_history), db)
  | Some latest =>
      let calc_data := quick_request latest charge_amount final_total note in
      calculate_money now calc_data db
  end.

End Handlers.

(** [DELETE /api/history/{record_id}]: the query is bound to [record_id];
    [db.delete(record)] removes the row whose primary key is that of
    [record]. *)
Definition delete_history (record_id : Z) (db : Session) : response string * Session :=
  if fits_int64 record_id
  then
    match find_by_id record_id db with
    | None => (Raise (mkHTTPException 404 detail_not_found), db)
    | Some record =>
        (Return message_deleted,
         mkSession
           (filter
              (fun r => negb (CalculationHistory.id r =? CalculationHistory.id record))
              (calculation_history db))
           (saved_settings db))
    end
  else (OverflowError, db).

(** [DELETE /api/history/] *)
Definition clear_all_history (db : Session) : string * Session :=
  (message_cleared, mkSession [] []).

Definition empty_session : Session := mkSession [] [].

(** [ORDER BY created_at DESC]: rows from the newest to the oldest; rows of
    equal [created_at] stay in insertion order, as in [latest_of]. *)
Fixpoint insert_desc (r : CalculationHistory.t) (sorted : list CalculationHistory.t)
  : list CalculationHistory.t :=
  match sorted with
  | [] => [r]
  | x :: rest =>
      if CalculationHistory.created_at r <? CalculationHistory.created_at x
      then x :: insert_desc r rest
      else r :: sorted
  end.

Definition order_by_created_at_desc (rows : list CalculationHistory.t)
  : list CalculationHistory.t :=
  fold_right insert_desc [] rows.

(** [LIMIT n]: the first [n] rows; SQLite reads a negative [n] as no limit. *)
Definition limit_rows (n : Z) (rows : list CalculationHistory.t)
  : list CalculationHistory.t :=
  if n <? 0 then rows else firstn (Z.to_nat n) rows.

(** [GET /api/history/]; the default of [limit] is 20, and the query is
    bound to it. *)
Definition get_history (limit : Z) (db : Session)
  : response (list CalculationHistory.t) :=
  if fits_int64 limit
  then Return (limit_rows limit (order_by_created_at_desc (calculation_history db)))
  else OverflowError.

(** The dictionary [get_latest_status] returns: [{"has_data": False}], or
    the three values of the latest row with [has_data] true. *)
Inductive LatestStatus : Type :=
| NoData
| HasData (others_money my_remaining : float) (last_calculation : string).

Definition has_data (st : LatestStatus) : bool :=
  match st with NoData => false | HasData _ _ _ => true end.

(** [GET /api/latest_status/]; [strftime] is
    [created_at.strftime] at the format of the source, a builtin. *)
Definition get_latest_status (strftime : datetime -> string) (db : Session)
  : LatestStatus :=
  match latest db with
  | None => NoData
  | Some latest =>
      HasData (CalculationHistory.others_money latest)
        (CalculationHistory.my_remaining latest)
        (strftime (CalculationHistory.created_at latest))
  end.

(** The routes that write, each with what it reads from the request and, for
    the two that insert, the clock. *)
Inductive request : Type :=
| PostCalculate (now : datetime) (data : CardCalculation.t)
| PostQuickCalculate (now : datetime) (charge_amount final_total : float) (note : string)
| DeleteHistory (record_id : Z)
| DeleteAllHistory.

(** The tables after a request is served. *)
Definition serve (repr : float -> string) (db : Session) (req : request) : Session :=
  match req with
  | PostCalculate now data => snd (calculate_money repr now data db)
  | PostQuickCalculate now charge_amount final_total note =>
      snd (quick_calculate repr now charge_amount final_total note db)
  | DeleteHistory record_id => snd (delete_history record_id db)
  | DeleteAllHistory => snd (clear_all_history db)
  end.

Definition serve_all (repr : float -> string) (reqs : list request) (db : Session)
  : Session :=
  fold_left (serve repr) reqs db.

(** What the tables of the application keep true. *)
Definition unique_keys (db : Session) : Prop :=
  NoDup (map SavedSettings.key (saved_settings db)).

Definition row_invariant (r : CalculationHistory.t) : Prop :=
  0 < CalculationHistory.id r
  /\ CalculationHistory.others_money r
     = (CalculationHistory.initial_total r - CalculationHistory.my_initial r)%float
  /\ CalculationHistory.my_remaining r
     = (CalculationHistory.final_total r - CalculationHistory.others_money r)%float
  /\ CalculationHistory.my_consumed r
     = ((CalculationHistory.my_initial r + CalculationHistory.my_charge r)
        - CalculationHistory.my_remaining r)%float
  /\ (CalculationHistory.initial_total r <? CalculationHistory.my_initial r)%float = false
  /\ (CalculationHistory.initial_total r <? 0)%float = false
  /\ (CalculationHistory.my_initial r <? 0)%float = false
  /\ (CalculationHistory.my_charge r <? 0)%float = false
  /\ (CalculationHistory.final_total r <? 0)%float = false
  /\ (CalculationHistory.my_remaining r <? 0)%float = false
  /\ (CalculationHistory.my_consumed r <? 0)%float = false.

(** ** The conditions and values of [calculate_money], named *)

(** The four tests of [calculate_money], in the order of the source, and the
    values it derives between the second and the third. *)
Definition negative_amount (data : CardCalculation.t) : bool :=
  ((CardCalculation.initial_total data <? 0)
   || (CardCalculation.my_initial data <? 0)
   || (CardCalculation.my_charge data <? 0)
   || (CardCalculation.final_total data <? 0))%float.

Definition initial_exceeds (data : CardCalculation.t) : bool :=
  (CardCalculation.initial_total data <? CardCalculation.my_initial data)%float.

Definition derived_others_money (data : CardCalculation.t) : float :=
  (CardCalculation.initial_total data - CardCalculation.my_initial data)%float.

Definition derived_my_after_charge (data : CardCalculation.t) : float :=
  (CardCalculation.my_initial data + CardCalculation.my_charge data)%float.

Definition derived_total_after_charge (data : CardCalculation.t) : float :=
  (CardCalculation.initial_total data + CardCalculation.my_charge data)%float.

Definition derived_my_remaining (data : CardCalculation.t) : float :=
  (CardCalculation.final_total data - derived_others_money data)%float.

Definition derived_my_consumed (data : CardCalculation.t) : float :=
  (derived_my_after_charge data - derived_my_remaining data)%float.

Definition negative_remaining (data : CardCalculation.t) : bool :=
  (derived_my_remaining data <? 0)%float.

Definition negative_consumed (data : CardCalculation.t) : bool :=
  (derived_my_consumed data <? 0)%float.

(** All four tests pass. *)
Definition passes_validation (data : CardCalculation.t) : bool :=
  negb (negative_amount data) && negb (initial_exceeds data)
  && negb (negative_remaining data) && negb (negative_consumed data).

(** The five trace lines of a request. *)
Definition trace (repr : float -> string) (data : CardCalculation.t) : list string :=
  [ step_others repr (CardCalculation.initial_total data)
      (CardCalculation.my_initial data) (derived_others_money data);
    step_after_charge repr (CardCalculation.my_initial data)
      (CardCalculation.my_charge data) (derived_my_after_charge data);
    step_total_after_charge repr (CardCalculation.initial_total data)
      (CardCalculation.my_charge data) (derived_total_after_charge data);
    step_remaining repr (CardCalculation.final_total data)
      (derived_others_money data) (derived_my_remaining data);
    step_consumed repr (derived_my_after_charge data)
      (derived_my_remaining data) (derived_my_consumed data) ].

(** The row a request is stored as. *)
Definition record_of (now : datetime) (data : CardCalculation.t) (db : Session)
  : CalculationHistory.t :=
  CalculationHistory.mk (next_id (calculation_history db))
    (CardCalculation.initial_total data) (CardCalculation.my_initial data)
    (CardCalculation.my_charge data) (CardCalculation.final_total data)
    (derived_others_money data) (derived_my_remaining data) (derived_my_consumed data)
    (match CardCalculation.note data with Some s => s | None => EmptyString end)
    now.

(** The row a request is stored as, as the table holds it. *)
Definition stored_row (now : datetime) (data : CardCalculation.t) (db : Session)
  : CalculationHistory.t :=
  stored_record (record_of now data db).

(** None of the seven amounts of a request is NaN: its row can be stored. *)
Definition storable (data : CardCalculation.t) : bool :=
  negb (is_nan (CardCalculation.initial_total data))
  && negb (is_nan (CardCalculation.my_initial data))
  && negb (is_nan (CardCalculation.my_charge data))
  && negb (is_nan (CardCalculation.final_total data))
  && negb (is_nan (derived_others_money data))
  && negb (is_nan (derived_my_remaining data))
  && negb (is_nan (derived_my_consumed data)).

(** What [calculate_money] does with a request that passed its four tests:
    it stores the row and answers, or lets the error of the commit through. *)
Definition store_and_answer (repr : float -> string) (now : datetime)
    (data : CardCalculation.t) (db : Session)
  : response CalculationResult.t * Session :=
  if storable data
  then
    (Return
       (CalculationResult.mk (Some (next_id (calculation_history db)))
          (derived_others_money data) (derived_my_remaining data)
          (derived_my_consumed data) (trace repr data) (Some now)),
     mkSession (calculation_history db ++ [stored_row now data db])%list
       (saved_settings db))
  else (IntegrityError, db).

(** The data-model equations of a stored row. *)
Definition derivation_holds (r : CalculationHistory.t) : Prop :=
  CalculationHistory.others_money r
  = (CalculationHistory.initial_total r - CalculationHistory.my_initial r)%float
  /\ CalculationHistory.my_remaining r
     = (CalculationHistory.final_total r - CalculationHistory.others_money r)%float
  /\ CalculationHistory.my_consumed r
     = ((CalculationHistory.my_initial r + CalculationHistory.my_charge r)
        - CalculationHistory.my_remaining r)%float.

(** Primary keys are unique. *)
Definition unique_ids (db : Session) : Prop :=
  NoDup (map CalculationHistory.id (calculation_history db)).

(** The requests and tables of the examples. *)
Definition example_request : CardCalculation.t :=
  CardCalculation.mk 100 40 10 80 None.

Definition example_session (repr : float -> string) : Session :=
  snd (calculate_money repr 1 example_request empty_session).

Definition example_row : CalculationHistory.t :=
  CalculationHistory.mk 1 100 40 10 80 60 20 30 EmptyString 1.

(** ** Binary floating-point numbers *)

(** The finite numbers of a binary format with [prec] digits and exponents
    below [emax] are the multiples [m * 2 ^ e] with [e] at least [emin]: read
    in units of [2 ^ emin] they are integers.  [Prim2SF] gives the sign,
    mantissa and exponent of a [float], at [prec] 53 and [emax] 1024. *)
Module Format.
Section Definitions.
Variables prec emax : Z.

(** Number of binary digits of a mantissa. *)
Definition digits (m : positive) : Z := Zpos (digits2_pos m).

(** The value of mantissa [m] and exponent [e], in units of [2 ^ emin]. *)
Definition scaled (m : positive) (e : Z) : Z :=
  Zpos m * 2 ^ (e - SpecFloat.emin prec emax).

(** [m] and [e] are the mantissa and exponent the format uses for their value. *)
Definition canonical (m : positive) (e : Z) : Prop :=
  canonical_mantissa prec emax m e = true.

(** What [binary_round_aux] builds from the final mantissa and exponent. *)
Definition pack (s : bool) (m : positive) (e : Z) : spec_float :=
  if e <=? emax - prec then S754_finite s m e else S754_infinity s.

(** [m''] and [e''] are a canonical number with no canonical number strictly
    between it and [v]: [v] rounded, up or down. *)
Definition rounds_to (v : Z) (m'' : positive) (e'' : Z) : Prop :=
  canonical m'' e''
  /\ (forall my ey, canonical my ey -> scaled my ey <= v -> scaled my ey <= scaled m'' e'')
  /\ (forall my ey, canonical my ey -> v <= scaled my ey -> scaled m'' e'' <= scaled my ey).

(** Above every finite number: where the infinities stand. *)
Definition top : Z := 2 ^ (emax - SpecFloat.emin prec emax).

(** The place of a number in the order of the format. *)
Definition ord (x : spec_float) : Z :=
  match x with
  | S754_zero _ | S754_nan => 0
  | S754_infinity s => if s then - top else top
  | S754_finite s m e => if s then - scaled m e else scaled m e
  end.

Definition nonneg (x : spec_float) : bool :=
  match x with
  | S754_zero _ | S754_infinity false | S754_finite false _ _ => true
  | _ => false
  end.

Definition finite_or_zero (x : spec_float) : bool :=
  match x with
  | S754_zero _ | S754_finite _ _ _ => true
  | _ => false
  end.

(** A zero without its sign. *)
Definition forget_zero_sign (x : spec_float) : spec_float :=
  match x with
  | S754_zero _ => S754_zero false
  | _ => x
  end.

End Definitions.
End Format.

Definition ord64 (x : float) : Z := Format.ord prec emax (Prim2SF x).

Definition nonneg64 (x : float) : bool := Format.nonneg (Prim2SF x).

(** The four amounts of a request are finite numbers. *)
Definition finite_request (data : CardCalculation.t) : bool :=
  is_finite (CardCalculation.initial_total data)
  && is_finite (CardCalculation.my_initial data)
  && is_finite (CardCalculation.my_charge data)
  && is_finite (CardCalculation.final_total data).

(** The two inequalities of the data model, as Python evaluates [0 <= x]. *)
Definition amounts_nonneg (r : CalculationHistory.t) : Prop :=
  (0 <=? CalculationHistory.my_remaining r)%float = true
  /\ (0 <=? CalculationHistory.my_consumed r)%float = true.

(** * Properties *)

(** ** Rounding in a binary format *)

(** [binary_round_aux] shifts the mantissa right by iterating [shr_1]; the
    iteration is a division by a power of two that remembers whether a bit
    was lost. *)
Lemma iter_pos_nat (A : Type) (f : A -> A) n x :
  iter_pos f n x = Nat.iter (Pos.to_nat n) f x.
Proof.
  revert x. induction n as [n IH|n IH|]; intros x; simpl iter_pos.
  - rewrite !IH, Pos2Nat.inj_xI, Nat.iter_succ_r.
    replace (2 * Pos.to_nat n)%nat with (Pos.to_nat n + Pos.to_nat n)%nat by lia.
    rewrite Nat.iter_add. reflexivity.
  - rewrite !IH, Pos2Nat.inj_xO.
    replace (2 * Pos.to_nat n)%nat with (Pos.to_nat n + Pos.to_nat n)%nat by lia.
    rewrite Nat.iter_add. reflexivity.
  - reflexivity.
Qed.

(** One shift halves a non-negative mantissa. *)
Lemma shr_1_m mrs : 0 <= shr_m mrs -> shr_m (shr_1 mrs) = shr_m mrs / 2.
Proof.
  destruct mrs as [m r s]. simpl. intros H.
  rewrite <- Z.div2_div.
  destruct m as [|[p|p|]|p]; try reflexivity. lia.
Qed.

(** [k] shifts divide it by [2 ^ k], rounding down. *)
Lemma shr_nat_m k mrs :
  0 <= shr_m mrs -> shr_m (Nat.iter k shr_1 mrs) = shr_m mrs / 2 ^ Z.of_nat k.
Proof.
  intros H. induction k as [|k IH].
  - simpl. now rewrite Z.div_1_r.
  - rewrite Nat.iter_succ, shr_1_m, IH.
    + rewrite Nat2Z.inj_succ, Z.pow_succ_r by lia.
      rewrite Z.div_div by lia. f_equal. lia.
    + rewrite IH. apply Z.div_pos; lia.
Qed.

(** No bit shifted out: the location stays exact. *)
Lemma shr_nat_exact k m :
  0 <= m -> m mod 2 ^ Z.of_nat k = 0 ->
  loc_of_shr_record (Nat.iter k shr_1 (Build_shr_record m false false)) = loc_Exact.
Proof.
  revert m. induction k as [|k IH]; intros m Hm Hmod.
  - reflexivity.
  - rewrite Nat.iter_succ_r.
    rewrite Nat2Z.inj_succ, Z.pow_succ_r in Hmod by lia.
    assert (P : 0 < 2 ^ Z.of_nat k) by (apply Z.pow_pos_nonneg; lia).
    assert (E : m = 2 * (m / 2)).
    { rewrite Z.rem_mul_r in Hmod by lia.
      pose proof (Z.mod_pos_bound m 2 ltac:(lia)).
      pose proof (Z.mod_pos_bound (m / 2) (2 ^ Z.of_nat k) P).
      pose proof (Z.div_mod m 2 ltac:(lia)). lia. }
    assert (Hk : (m / 2) mod 2 ^ Z.of_nat k = 0).
    { rewrite Z.rem_mul_r in Hmod by lia.
      pose proof (Z.mod_pos_bound m 2 ltac:(lia)).
      pose proof (Z.mod_pos_bound (m / 2) (2 ^ Z.of_nat k) P). lia. }
    assert (S1 : shr_1 (Build_shr_record m false false)
                 = Build_shr_record (m / 2) false false).
    { rewrite <- Z.div2_div in *.
      destruct m as [|[p|p|]|p]; try reflexivity; exfalso; simpl in E; lia. }
    rewrite S1. apply IH; [apply Z.div_pos; lia|assumption].
Qed.

(** Rounding to nearest keeps the truncated mantissa or adds one to it. *)
Lemma round_nearest_even_cases m l :
  round_nearest_even m l = m \/ round_nearest_even m l = m + 1.
Proof.
  destruct l as [|[| |]]; simpl; auto. destruct (Z.even m); auto.
Qed.

(** [shl_align] shifts left by appending zero bits. *)
Lemma shift_left_pos m k : Zpos (Pos.iter xO m k) = Zpos m * 2 ^ Zpos k.
Proof.
  induction k as [|k IH] using Pos.peano_ind.
  - simpl. lia.
  - rewrite Pos.iter_succ, Pos2Z.inj_succ, Z.pow_succ_r by lia.
    change (Zpos (Pos.iter xO m k)~0) with (2 * Zpos (Pos.iter xO m k)). lia.
Qed.

Section Rounding.
Variables prec emax : Z.
Hypothesis prec_pos : 0 < prec.

Abbreviation emin := (SpecFloat.emin prec emax).
Abbreviation fexp := (SpecFloat.fexp prec emax).
Abbreviation digits := Format.digits.
Abbreviation scaled := (Format.scaled prec emax).
Abbreviation canonical := (Format.canonical prec emax).
Abbreviation pack := (Format.pack prec emax).
Abbreviation rounds_to := (Format.rounds_to prec emax).
Abbreviation top := (Format.top prec emax).
Abbreviation ord := (Format.ord prec emax).
Abbreviation nonneg := Format.nonneg.
Abbreviation finite_or_zero := Format.finite_or_zero.

Lemma digits_pos m : 0 < digits m.
Proof. unfold digits. lia. Qed.

(** A mantissa of [d] digits lies between [2 ^ (d - 1)] and [2 ^ d]. *)
Lemma digits_bounds m : 2 ^ (digits m - 1) <= Zpos m < 2 ^ digits m.
Proof.
  unfold digits. induction m as [m IH|m IH|]; simpl digits2_pos.
  - rewrite Pos2Z.inj_succ.
    replace (Z.succ (Zpos (digits2_pos m)) - 1) with (Z.succ (Zpos (digits2_pos m) - 1)) by lia.
    rewrite !Z.pow_succ_r by lia. lia.
  - rewrite Pos2Z.inj_succ.
    replace (Z.succ (Zpos (digits2_pos m)) - 1) with (Z.succ (Zpos (digits2_pos m) - 1)) by lia.
    rewrite !Z.pow_succ_r by lia. lia.
  - simpl. lia.
Qed.

Lemma digits_unique m k : 2 ^ (k - 1) <= Zpos m < 2 ^ k -> digits m = k.
Proof.
  intros [Hlo Hhi]. pose proof (digits_bounds m) as [Dlo Dhi].
  pose proof (digits_pos m).
  assert (0 < k).
  { destruct (Z.ltb_spec 0 k); [assumption|]. rewrite Z.pow_neg_r in Hlo by lia.
    exfalso. destruct (Z.eq_dec k 0); [subst; simpl in Hhi; lia|].
    rewrite Z.pow_neg_r in Hhi by lia. lia. }
  destruct (Z.lt_trichotomy (digits m) k) as [L|[E|G]]; [|assumption|].
  - exfalso. assert (2 ^ digits m <= 2 ^ (k - 1)) by (apply Z.pow_le_mono_r; lia). lia.
  - exfalso. assert (2 ^ k <= 2 ^ (digits m - 1)) by (apply Z.pow_le_mono_r; lia). lia.
Qed.



Lemma canonical_fexp m e : canonical m e <-> e = fexp (digits m + e).
Proof.
  unfold canonical, canonical_mantissa, digits. rewrite Z.eqb_eq. split; congruence.
Qed.

Lemma canonical_bounds m e :
  canonical m e -> emin <= e /\ digits m <= prec /\ (emin < e -> digits m = prec).
Proof.
  intros H. apply canonical_fexp in H. unfold SpecFloat.fexp in H. lia.
Qed.

Lemma pow2_pos k : 0 <= k -> 0 < 2 ^ k.
Proof. intros. apply Z.pow_pos_nonneg; lia. Qed.

Lemma scaled_pos m e : emin <= e -> 0 < scaled m e.
Proof. intros. unfold scaled. pose proof (pow2_pos (e - emin)). nia. Qed.

(** A canonical number below [2 ^ (prec - 1 + t)] when its exponent is below [t]. *)
Lemma canonical_small my ey t :
  canonical my ey -> ey < t -> scaled my ey < 2 ^ (prec - 1) * 2 ^ (t - emin).
Proof.
  intros C L. destruct (canonical_bounds _ _ C) as (He & Hd & _).
  pose proof (digits_bounds my) as [_ Hhi]. pose proof (digits_pos my).
  unfold scaled.
  assert (Zpos my < 2 ^ prec).
  { eapply Z.lt_le_trans; [exact Hhi|]. apply Z.pow_le_mono_r; lia. }
  assert (2 ^ prec * 2 ^ (ey - emin) <= 2 ^ (prec - 1) * 2 ^ (t - emin)).
  { rewrite <- !Z.pow_add_r by lia. apply Z.pow_le_mono_r; lia. }
  pose proof (pow2_pos (ey - emin)). nia.
Qed.

(** A canonical number with exponent at least [t] is a multiple of [2 ^ t]. *)
Lemma canonical_multiple my ey t :
  emin <= t -> t <= ey ->
  scaled my ey = (Zpos my * 2 ^ (ey - t)) * 2 ^ (t - emin).
Proof.
  intros. unfold scaled. rewrite <- Z.mul_assoc, <- Z.pow_add_r by lia.
  do 2 f_equal. lia.
Qed.

(** [shr] by [n] places: the mantissa divided by [2 ^ n], and an exact
    location when nothing was lost. *)
Lemma shr_spec m e n :
  0 <= m -> 0 < n ->
  exists mrs,
    shr (Build_shr_record m false false) e n = (mrs, e + n)
    /\ shr_m mrs = m / 2 ^ n
    /\ (m mod 2 ^ n = 0 -> loc_of_shr_record mrs = loc_Exact).
Proof.
  intros Hm Hn. destruct n as [|p|p]; try lia.
  unfold shr. rewrite iter_pos_nat. eexists. split; [reflexivity|].
  assert (E : Zpos p = Z.of_nat (Pos.to_nat p)) by (symmetry; apply positive_nat_Z).
  rewrite E. split.
  - now rewrite shr_nat_m.
  - now apply shr_nat_exact.
Qed.



Lemma fexp_normal t : emin <= t -> fexp (prec + t) = t.
Proof. unfold SpecFloat.fexp. lia. Qed.

(** The second alignment of [binary_round_aux]: a mantissa of [prec] digits
    stays, and [2 ^ prec] is halved. *)
Lemma renormalize s m2 t :
  emin <= t -> 2 ^ (prec - 1) <= m2 <= 2 ^ prec ->
  exists m'' e'',
    canonical m'' e'' /\ scaled m'' e'' = m2 * 2 ^ (t - emin)
    /\ (let '(mrs'', e2) := shr_fexp prec emax m2 t loc_Exact in
        match shr_m mrs'' with
        | Z0 => S754_zero s
        | Zpos m => if e2 <=? emax - prec then S754_finite s m e2 else S754_infinity s
        | Zneg _ => S754_nan
        end) = pack s m'' e''.
Proof.
  intros Ht [Hlo Hhi].
  assert (P1 : 0 < 2 ^ (prec - 1)) by (apply pow2_pos; lia).
  destruct m2 as [|p2|p2]; try lia.
  unfold shr_fexp. simpl Zdigits2. fold (digits p2). simpl shr_record_of_loc.
  destruct (Z.eq_dec (Zpos p2) (2 ^ prec)) as [E|NE].
  - assert (D : digits p2 = prec + 1).
    { apply digits_unique. replace (prec + 1 - 1) with prec by lia.
      rewrite E, Z.pow_add_r by lia. lia. }
    rewrite D. replace (prec + 1 + t) with (prec + (t + 1)) by lia.
    rewrite fexp_normal by lia. replace (t + 1 - t) with 1 by lia.
    destruct (shr_spec (Zpos p2) t 1 ltac:(lia) ltac:(lia)) as (mrs & -> & Hm & _).
    rewrite Hm, E. change (2 ^ 1) with 2.
    assert (H2 : 2 ^ prec / 2 = 2 ^ (prec - 1)).
    { replace prec with (Z.succ (prec - 1)) at 1 by lia.
      rewrite Z.pow_succ_r by lia. rewrite Z.mul_comm, Z.div_mul by lia. reflexivity. }
    rewrite H2. destruct (2 ^ (prec - 1)) as [|q|q] eqn:Q; try lia.
    exists q, (t + 1). repeat split.
    + apply canonical_fexp.
      assert (Dq : digits q = prec).
      { apply digits_unique. rewrite <- Q. split; [lia|].
        replace (2 ^ prec) with (2 ^ Z.succ (prec - 1)) by (f_equal; lia).
        rewrite Z.pow_succ_r by lia. lia. }
      rewrite Dq. now rewrite fexp_normal by lia.
    + unfold scaled. rewrite <- Q.
      replace (t + 1 - emin) with (Z.succ (t - emin)) by lia.
      replace (2 ^ prec) with (2 ^ Z.succ (prec - 1)) by (f_equal; lia).
      rewrite !Z.pow_succ_r by lia. lia.
  - assert (D : digits p2 = prec) by (apply digits_unique; lia).
    rewrite D, fexp_normal by lia. rewrite Z.sub_diag. simpl shr. simpl shr_m.
    exists p2, t. repeat split.
    apply canonical_fexp. rewrite D. now rewrite fexp_normal.
Qed.

(** [binary_round_aux] on an exact and aligned input: the result is the
    input rounded, packed with the overflow test. *)
Lemma round_aux_spec s mz ez :
  emin <= ez -> ez <= fexp (digits mz + ez) ->
  exists m'' e'',
    rounds_to (scaled mz ez) m'' e''
    /\ binary_round_aux prec emax s (Zpos mz) ez loc_Exact = pack s m'' e''.
Proof.
  intros He Ht. unfold binary_round_aux. unfold shr_fexp at 1.
  simpl Zdigits2. fold (digits mz). simpl shr_record_of_loc.
  set (t := fexp (digits mz + ez)) in *.
  destruct (Z.eq_dec t ez) as [E|NE].
  - rewrite E, Z.sub_diag. simpl shr. simpl shr_m. simpl loc_of_shr_record.
    simpl round_nearest_even. unfold shr_fexp. simpl Zdigits2. fold (digits mz).
    fold t. rewrite E, Z.sub_diag. simpl.
    exists mz, ez. split; [|reflexivity].
    split; [|split]; auto. apply canonical_fexp. fold t. congruence.
  - assert (Hn : 0 < t - ez) by lia.
    assert (Et : t = digits mz + ez - prec) by (unfold t, SpecFloat.fexp in *; lia).
    destruct (shr_spec (Zpos mz) ez (t - ez) ltac:(lia) Hn) as (mrs & -> & Hm & Hex).
    replace (ez + (t - ez)) with t by lia.
    set (n := t - ez) in *. set (m1 := Zpos mz / 2 ^ n) in *.
    set (loc := loc_of_shr_record mrs) in *. rewrite Hm.
    pose proof (digits_bounds mz) as [Dlo Dhi].
    assert (X : 0 < 2 ^ n) by (apply pow2_pos; lia).
    assert (Y : 0 < 2 ^ (ez - emin)) by (apply pow2_pos; lia).
    assert (P1 : 0 < 2 ^ (prec - 1)) by (apply pow2_pos; lia).
    pose proof (Z.div_mod (Zpos mz) (2 ^ n) ltac:(lia)) as DM. fold m1 in DM.
    pose proof (Z.mod_pos_bound (Zpos mz) (2 ^ n) X) as MB.
    assert (B1 : 2 ^ (prec - 1) <= m1).
    { apply Z.div_le_lower_bound; [lia|]. rewrite <- Z.pow_add_r by lia.
      replace (n + (prec - 1)) with (digits mz - 1) by lia. exact Dlo. }
    assert (B2 : m1 < 2 ^ prec).
    { apply Z.div_lt_upper_bound; [lia|]. rewrite <- Z.pow_add_r by lia.
      replace (n + prec) with (digits mz) by lia. exact Dhi. }
    assert (XY : 2 ^ (t - emin) = 2 ^ n * 2 ^ (ez - emin)).
    { rewrite <- Z.pow_add_r by lia. f_equal. lia. }
    set (m2 := round_nearest_even m1 loc).
    assert (C2 : m2 = m1 \/ (m2 = m1 + 1 /\ Zpos mz mod 2 ^ n <> 0)).
    { destruct (Z.eq_dec (Zpos mz mod 2 ^ n) 0) as [Z0|NZ].
      - left. unfold m2. rewrite (Hex Z0). reflexivity.
      - destruct (round_nearest_even_cases m1 loc); [left|right]; auto. }
    destruct (renormalize s m2 t ltac:(lia) ltac:(lia)) as (m'' & e'' & C & V & R).
    exists m'', e''. split; [|exact R].
    split; [exact C|]. rewrite V. unfold scaled at 2 4. rewrite XY.
    split; intros my ey Cy Hy; destruct (Z_lt_le_dec ey t) as [L|G].
    + pose proof (canonical_small my ey t Cy L). rewrite XY in *. nia.
    + rewrite (canonical_multiple my ey t ltac:(lia) G) in *. rewrite XY in *.
      assert (Zpos my * 2 ^ (ey - t) < m1 + 1) by nia. nia.
    + pose proof (canonical_small my ey t Cy L). rewrite XY in *. nia.
    + rewrite (canonical_multiple my ey t ltac:(lia) G) in *. rewrite XY in *.
      destruct C2 as [->|[-> NZ]]; [nia|].
      assert (m1 < Zpos my * 2 ^ (ey - t)) by nia. nia.
Qed.


Hypothesis prec_lt_emax : prec < emax.

(** ** Non-negative numbers in order *)

Lemma bounded_canonical m e :
  bounded prec emax m e = true -> canonical m e /\ e <= emax - prec.
Proof.
  unfold bounded. rewrite andb_true_iff, Z.leb_le. tauto.
Qed.

Lemma canonical_lt_top m e : canonical m e -> e <= emax - prec -> 0 < scaled m e < top.
Proof.
  intros C Hle. destruct (canonical_bounds _ _ C) as (He & Hd & _).
  split; [now apply scaled_pos|].
  pose proof (digits_bounds m) as [_ Hhi]. pose proof (digits_pos m).
  assert (Zpos m < 2 ^ prec).
  { eapply Z.lt_le_trans; [exact Hhi|]. apply Z.pow_le_mono_r; lia. }
  assert (2 ^ prec * 2 ^ (e - emin) <= top).
  { unfold top. rewrite <- Z.pow_add_r by lia. apply Z.pow_le_mono_r; lia. }
  unfold scaled. pose proof (pow2_pos (e - emin)). nia.
Qed.

(** Comparing canonical numbers by exponent, then by mantissa, compares their
    values. *)
Lemma compare_canonical ma ea mb eb :
  canonical ma ea -> canonical mb eb ->
  match Z.compare ea eb with
  | Lt => Lt
  | Gt => Gt
  | Eq => Pos.compare_cont Eq ma mb
  end = (scaled ma ea ?= scaled mb eb).
Proof.
  intros Ca Cb. symmetry.
  destruct (canonical_bounds _ _ Ca) as (Ha & _ & Na).
  destruct (canonical_bounds _ _ Cb) as (Hb & _ & Nb).
  assert (P1 : 0 < 2 ^ (prec - 1)) by (apply pow2_pos; lia).
  destruct (Z.compare_spec ea eb) as [E|L|G].
  - subst eb. unfold scaled. pose proof (pow2_pos (ea - emin) ltac:(lia)).
    change (Pos.compare_cont Eq ma mb) with (ma ?= mb)%positive.
    destruct (Pos.compare_spec ma mb) as [E|L|G].
    + subst mb. apply Z.compare_refl.
    + apply Z.compare_lt_iff. nia.
    + apply Z.compare_gt_iff. nia.
  - apply Z.compare_lt_iff.
    pose proof (canonical_small ma ea eb Ca L).
    pose proof (digits_bounds mb) as [Dlo _]. rewrite (Nb ltac:(lia)) in Dlo.
    unfold scaled at 2. pose proof (pow2_pos (eb - emin)). nia.
  - apply Z.compare_gt_iff.
    pose proof (canonical_small mb eb ea Cb G).
    pose proof (digits_bounds ma) as [Dlo _]. rewrite (Na ltac:(lia)) in Dlo.
    unfold scaled at 2. pose proof (pow2_pos (ea - emin)). nia.
Qed.

Lemma top_pos : 0 < top.
Proof. unfold top. apply pow2_pos. unfold SpecFloat.emin. lia. Qed.

(** On valid non-negative numbers the comparison of floats is that of [ord]. *)
Lemma SFcompare_ord x y :
  SpecFloat.valid_binary prec emax x = true ->
  SpecFloat.valid_binary prec emax y = true ->
  nonneg x = true -> nonneg y = true ->
  SFcompare x y = Some (ord x ?= ord y).
Proof.
  pose proof top_pos as T.
  intros Vx Vy Nx Ny.
  destruct x as [sx|[|]| |[|] mx ex]; try discriminate Nx;
    destruct y as [sy|[|]| |[|] my ey]; try discriminate Ny;
    cbn [SpecFloat.valid_binary] in Vx, Vy;
    try (apply bounded_canonical in Vx as [Cx Lx];
         pose proof (canonical_lt_top _ _ Cx Lx));
    try (apply bounded_canonical in Vy as [Cy Ly];
         pose proof (canonical_lt_top _ _ Cy Ly));
    cbn [SFcompare Format.ord]; f_equal;
    try (now apply compare_canonical);
    symmetry;
    first [ apply Z.compare_eq_iff; lia
          | apply Z.compare_lt_iff; lia
          | apply Z.compare_gt_iff; lia ].
Qed.


(** ** Rounding a mantissa and an exponent *)

Lemma digits_shift m k : digits (Pos.iter xO m k) = digits m + Zpos k.
Proof.
  apply digits_unique. rewrite shift_left_pos.
  pose proof (digits_bounds m) as [Dlo Dhi]. pose proof (digits_pos m).
  replace (digits m + Zpos k - 1) with (digits m - 1 + Zpos k) by lia.
  rewrite !Z.pow_add_r by lia. pose proof (pow2_pos (Zpos k)). nia.
Qed.

Lemma shl_align_spec m e e' :
  let '(mz, ez) := shl_align m e e' in
  ez = Z.min e e' /\ Zpos mz = Zpos m * 2 ^ (e - ez)
  /\ digits mz = digits m + (e - ez).
Proof.
  unfold shl_align. destruct (e' - e) as [|p|p] eqn:D.
  - replace (Z.min e e') with e by lia. rewrite Z.sub_diag. simpl. lia.
  - replace (Z.min e e') with e by lia. rewrite Z.sub_diag. simpl. lia.
  - replace (Z.min e e') with e' by lia. replace (e - e') with (Zpos p) by lia.
    split; [reflexivity|]. split; [apply shift_left_pos|apply digits_shift].
Qed.

Lemma shl_align_scaled m e e' :
  emin <= e' -> e' <= e ->
  Zpos (fst (shl_align m e e')) * 2 ^ (e' - emin) = scaled m e.
Proof.
  intros H1 H2. pose proof (shl_align_spec m e e') as S.
  destruct (shl_align m e e') as [mz ez]. destruct S as (E & M & _). simpl fst.
  replace ez with e' in M by lia. rewrite M. unfold scaled.
  rewrite <- Z.mul_assoc, <- Z.pow_add_r by lia. do 2 f_equal. lia.
Qed.

Lemma fexp_ge_emin x : emin <= fexp x.
Proof. unfold SpecFloat.fexp. lia. Qed.

(** [binary_round] rounds any mantissa and exponent not below [emin]. *)
Lemma binary_round_spec s m e :
  emin <= e ->
  exists m'' e'',
    rounds_to (scaled m e) m'' e'' /\ binary_round prec emax s m e = pack s m'' e''.
Proof.
  intros He. unfold binary_round.
  pose proof (shl_align_spec m e (fexp (digits m + e))) as S. fold (digits m).
  destruct (shl_align m e (fexp (digits m + e))) as [mz ez].
  destruct S as (E & M & D).
  pose proof (fexp_ge_emin (digits m + e)) as F.
  assert (Hs : scaled mz ez = scaled m e).
  { unfold scaled. rewrite M, <- Z.mul_assoc, <- Z.pow_add_r by lia.
    do 2 f_equal. lia. }
  rewrite <- Hs. apply round_aux_spec; [lia|].
  rewrite D. replace (digits m + (e - ez) + ez) with (digits m + e) by lia. lia.
Qed.

Lemma pack_not_nan s m e : pack s m e <> S754_nan.
Proof. unfold pack. destruct (e <=? emax - prec); discriminate. Qed.

Lemma binary_normalize_not_nan m e sz :
  emin <= e -> binary_normalize prec emax m e sz <> S754_nan.
Proof.
  intros He. destruct m as [|p|p]; simpl; [discriminate| |].
  - destruct (binary_round_spec false p e He) as (m'' & e'' & _ & ->). apply pack_not_nan.
  - destruct (binary_round_spec true p e He) as (m'' & e'' & _ & ->). apply pack_not_nan.
Qed.

(** A rounding that stays below a number of the format does not overflow. *)
Lemma no_overflow m'' e'' mx ex :
  canonical m'' e'' -> canonical mx ex -> scaled m'' e'' <= scaled mx ex -> e'' <= ex.
Proof.
  intros C Cx H. destruct (Z_lt_le_dec ex e'') as [L|G]; [exfalso|exact G].
  pose proof (canonical_small mx ex e'' Cx L).
  destruct (canonical_bounds _ _ C) as (_ & _ & N).
  destruct (canonical_bounds _ _ Cx) as (Hx & _ & _).
  pose proof (digits_bounds m'') as [Dlo _]. rewrite (N ltac:(lia)) in Dlo.
  unfold scaled at 1 in H. pose proof (pow2_pos (e'' - emin) ltac:(lia)). nia.
Qed.


(** ** Sums and differences of non-negative numbers *)

Lemma valid_finite s m e :
  SpecFloat.valid_binary prec emax (S754_finite s m e) = true ->
  canonical m e /\ e <= emax - prec /\ emin <= e /\ 0 < scaled m e < top.
Proof.
  intros V. apply bounded_canonical in V as [C L].
  destruct (canonical_bounds _ _ C) as (He & _ & _).
  pose proof (canonical_lt_top _ _ C L). auto.
Qed.

Lemma pack_false_ord m e : canonical m e -> nonneg (pack false m e) = true
  /\ (ord (pack false m e) = scaled m e \/ ord (pack false m e) = top).
Proof.
  intros C. unfold pack. destruct (e <=? emax - prec); simpl; auto.
Qed.

(** The sum of two non-negative numbers is non-negative and below neither. *)
Lemma SFadd_nonneg x y :
  SpecFloat.valid_binary prec emax x = true ->
  SpecFloat.valid_binary prec emax y = true ->
  nonneg x = true -> nonneg y = true ->
  nonneg (SFadd prec emax x y) = true
  /\ ord x <= ord (SFadd prec emax x y) /\ ord y <= ord (SFadd prec emax x y).
Proof.
  pose proof top_pos as T.
  intros Vx Vy Nx Ny.
  destruct x as [sx|[|]| |[|] mx ex]; try discriminate Nx;
    destruct y as [sy|[|]| |[|] my ey]; try discriminate Ny;
    try (apply valid_finite in Vx as (Cx & Lx & Ex & Bx));
    try (apply valid_finite in Vy as (Cy & Ly & Ey & By)).
  - destruct sx, sy; simpl; lia.
  - simpl. lia.
  - cbn [SFadd Format.nonneg Format.ord]. lia.
  - simpl. lia.
  - simpl. lia.
  - cbn [SFadd Format.nonneg Format.ord]. lia.
  - cbn [SFadd Format.nonneg Format.ord]. lia.
  - cbn [SFadd Format.nonneg Format.ord]. lia.
  - cbn [SFadd cond_Zopp]. cbn [Format.ord].
    set (ez := Z.min ex ey).
    set (a := fst (shl_align mx ex ez)). set (b := fst (shl_align my ey ez)).
    change (binary_normalize prec emax (Zpos a + Zpos b) ez false)
      with (binary_round prec emax false (a + b) ez).
    destruct (binary_round_spec false (a + b) ez ltac:(lia)) as (m'' & e'' & R & ->).
    destruct R as (C & Lo & _).
    assert (S : scaled (a + b) ez = scaled mx ex + scaled my ey).
    { unfold scaled at 1. rewrite Pos2Z.inj_add, Z.mul_add_distr_r.
      unfold a, b. rewrite !shl_align_scaled by lia. reflexivity. }
    pose proof (Lo mx ex Cx ltac:(lia)). pose proof (Lo my ey Cy ltac:(lia)).
    destruct (pack_false_ord m'' e'' C) as [N [O|O]]; rewrite O; split; auto; lia.
Qed.

(** The difference of two finite non-negative numbers is a number, and not
    plus infinity; it is finite and non-negative when the first is not below
    the second. *)
Lemma SFsub_nonneg x y :
  SpecFloat.valid_binary prec emax x = true ->
  SpecFloat.valid_binary prec emax y = true ->
  nonneg x = true -> nonneg y = true ->
  finite_or_zero x = true -> finite_or_zero y = true ->
  SFsub prec emax x y <> S754_nan
  /\ SFsub prec emax x y <> S754_infinity false
  /\ (ord y <= ord x ->
      nonneg (SFsub prec emax x y) = true
      /\ finite_or_zero (SFsub prec emax x y) = true).
Proof.
  intros Vx Vy Nx Ny Fx Fy.
  destruct x as [sx|[|]| |[|] mx ex]; try discriminate Nx; try discriminate Fx;
    destruct y as [sy|[|]| |[|] my ey]; try discriminate Ny; try discriminate Fy;
    try (apply valid_finite in Vx as (Cx & Lx & Ex & Bx));
    try (apply valid_finite in Vy as (Cy & Ly & Ey & By)).
  - destruct sx, sy; simpl; repeat split; discriminate.
  - cbn [SFsub Format.ord Format.nonneg Format.finite_or_zero negb].
    repeat split; try discriminate; lia.
  - cbn [SFsub Format.ord Format.nonneg Format.finite_or_zero]. repeat split; discriminate.
  - cbn [SFsub cond_Zopp]. cbn [Format.ord].
    set (ez := Z.min ex ey).
    set (a := fst (shl_align mx ex ez)). set (b := fst (shl_align my ey ez)).
    assert (Sa : Zpos a * 2 ^ (ez - emin) = scaled mx ex)
      by (apply shl_align_scaled; lia).
    assert (Sb : Zpos b * 2 ^ (ez - emin) = scaled my ey)
      by (apply shl_align_scaled; lia).
    pose proof (pow2_pos (ez - emin) ltac:(lia)) as P.
    destruct (Zpos a - Zpos b) as [|p|p] eqn:D.
    + simpl. repeat split; discriminate.
    + change (binary_normalize prec emax (Zpos p) ez false)
        with (binary_round prec emax false p ez).
      destruct (binary_round_spec false p ez ltac:(lia)) as (m'' & e'' & R & ->).
      destruct R as (C & _ & Up).
      assert (S : scaled p ez <= scaled mx ex).
      { unfold scaled at 1. rewrite <- D. nia. }
      pose proof (Up mx ex Cx S) as U.
      pose proof (no_overflow _ _ _ _ C Cx U) as NO.
      unfold pack. replace (e'' <=? emax - prec) with true
        by (symmetry; apply Z.leb_le; lia).
      simpl. repeat split; discriminate.
    + change (binary_normalize prec emax (Zneg p) ez false)
        with (binary_round prec emax true p ez).
      destruct (binary_round_spec true p ez ltac:(lia)) as (m'' & e'' & R & ->).
      unfold pack. destruct (e'' <=? emax - prec);
        (split; [discriminate|split; [discriminate|]]); intros H; exfalso; nia.
Qed.

(** A sum is a number when one term is a number and the other is finite. *)
Lemma SFadd_not_nan x y :
  SpecFloat.valid_binary prec emax x = true ->
  SpecFloat.valid_binary prec emax y = true ->
  x <> S754_nan -> finite_or_zero y = true ->
  SFadd prec emax x y <> S754_nan.
Proof.
  intros Vx Vy Nx Fy.
  destruct x as [sx|sx| |sx mx ex]; try contradiction;
    destruct y as [sy|sy| |sy my ey]; try discriminate Fy;
    try (apply valid_finite in Vx as (Cx & Lx & Ex & Bx));
    try (apply valid_finite in Vy as (Cy & Ly & Ey & By));
    try (cbn [SFadd]; discriminate).
  - destruct sx, sy; discriminate.
  - cbn [SFadd]. apply binary_normalize_not_nan. lia.
Qed.

(** A difference is a number when the first term is a non-negative number and
    the second is a number other than plus infinity. *)
Lemma SFsub_not_nan x y :
  SpecFloat.valid_binary prec emax x = true ->
  SpecFloat.valid_binary prec emax y = true ->
  nonneg x = true -> y <> S754_nan -> y <> S754_infinity false ->
  SFsub prec emax x y <> S754_nan.
Proof.
  intros Vx Vy Nx Ny Iy.
  destruct x as [sx|[|]| |[|] mx ex]; try discriminate Nx;
    destruct y as [sy|[|]| |sy my ey]; try contradiction;
    try (apply valid_finite in Vx as (Cx & Lx & Ex & Bx));
    try (apply valid_finite in Vy as (Cy & Ly & Ey & By));
    try (cbn [SFsub]; discriminate).
  - destruct sx, sy; discriminate.
  - cbn [SFsub]. apply binary_normalize_not_nan. lia.
Qed.
End Rounding.

(** ** Binary64 *)

Lemma prec_pos64 : 0 < prec.
Proof. reflexivity. Qed.

Lemma prec_lt_emax64 : prec < emax.
Proof. reflexivity. Qed.

Lemma Prim2SF_zero : Prim2SF 0 = S754_zero false.
Proof. reflexivity. Qed.

Lemma is_nan_Prim2SF x : is_nan x = true <-> Prim2SF x = S754_nan.
Proof.
  unfold Prim2SF. destruct (is_nan x); [tauto|].
  split; [discriminate|].
  destruct (is_zero x); [discriminate|]. destruct (is_infinity x); [discriminate|].
  destruct (Z.frexp x) as [r e]. destruct (shr_fexp _ _ _ _ _) as [mrs e'].
  destruct (shr_m mrs); discriminate.
Qed.

Lemma not_nan_Prim2SF x : is_nan x = false -> Prim2SF x <> S754_nan.
Proof.
  intros H E. apply is_nan_Prim2SF in E. congruence.
Qed.

Lemma is_finite_Prim2SF x : is_finite x = true -> Format.finite_or_zero (Prim2SF x) = true.
Proof.
  unfold is_finite, Prim2SF. destruct (is_nan x); [discriminate|].
  destruct (is_zero x); [reflexivity|]. destruct (is_infinity x); [discriminate|].
  intros _. destruct (Z.frexp x) as [r e]. destruct (shr_fexp _ _ _ _ _) as [mrs e'].
  destruct (shr_m mrs); reflexivity.
Qed.

(** [0 <= x] as Python evaluates it. *)
Lemma leb_zero_nonneg x : (0 <=? x)%float = true <-> nonneg64 x = true.
Proof.
  rewrite leb_spec, Prim2SF_zero. unfold nonneg64.
  destruct (Prim2SF x) as [s|[|]| |[|] m e]; cbv [SFleb SFcompare Format.nonneg];
    split; intros H; try reflexivity; discriminate H.
Qed.

(** [x < 0] is false of the non-negative numbers and of NaN only. *)
Lemma ltb_zero_false x :
  (x <? 0)%float = false <-> nonneg64 x = true \/ Prim2SF x = S754_nan.
Proof.
  rewrite ltb_spec, Prim2SF_zero. unfold nonneg64.
  destruct (Prim2SF x) as [s|[|]| |[|] m e]; cbv [SFltb SFcompare Format.nonneg];
    split; intros H; auto; try discriminate H; destruct H; discriminate.
Qed.

Lemma ltb_ord x y :
  nonneg64 x = true -> nonneg64 y = true ->
  (x <? y)%float = (ord64 x <? ord64 y).
Proof.
  intros Nx Ny. rewrite ltb_spec. unfold SFltb.
  rewrite (SFcompare_ord prec emax prec_pos64 prec_lt_emax64 _ _
             (Prim2SF_valid x) (Prim2SF_valid y) Nx Ny).
  fold (ord64 x) (ord64 y). unfold Z.ltb.
  destruct (ord64 x ?= ord64 y); reflexivity.
Qed.

Lemma add_nonneg x y :
  nonneg64 x = true -> nonneg64 y = true ->
  nonneg64 (x + y) = true /\ ord64 x <= ord64 (x + y) /\ ord64 y <= ord64 (x + y).
Proof.
  intros Nx Ny. unfold nonneg64, ord64. rewrite add_spec.
  apply (SFadd_nonneg prec emax prec_pos64 prec_lt_emax64);
    auto using Prim2SF_valid.
Qed.

Lemma is_finite_not_nan x : is_finite x = true -> is_nan x = false.
Proof. unfold is_finite. destruct (is_nan x); [discriminate|reflexivity]. Qed.

Lemma nonneg_of_ltb x : (x <? 0)%float = false -> is_nan x = false -> nonneg64 x = true.
Proof.
  intros H N. apply ltb_zero_false in H as [H|H]; [exact H|].
  apply is_nan_Prim2SF in H. congruence.
Qed.

Lemma sub_Prim2SF x y : Prim2SF (x - y) = SFsub prec emax (Prim2SF x) (Prim2SF y).
Proof. apply sub_spec. Qed.

Lemma add_Prim2SF x y : Prim2SF (x + y) = SFadd prec emax (Prim2SF x) (Prim2SF y).
Proof. apply add_spec. Qed.

Lemma leb_of_number x :
  (x <? 0)%float = false -> Prim2SF x <> S754_nan -> (0 <=? x)%float = true.
Proof.
  intros H N. apply leb_zero_nonneg. apply ltb_zero_false in H as [H|H]; tauto.
Qed.

(** The sum of two finite numbers, and of it and a third, is a number. *)
Lemma add3_not_nan o b c :
  is_finite o = true -> is_finite b = true -> is_finite c = true ->
  is_nan ((o + b) + c) = false.
Proof.
  intros Fo Fb Fc.
  destruct (is_nan (o + b + c)) eqn:E; [exfalso|reflexivity].
  apply is_nan_Prim2SF in E. revert E. rewrite add_Prim2SF.
  apply SFadd_not_nan;
    auto using prec_pos64, prec_lt_emax64, Prim2SF_valid, is_finite_Prim2SF.
  rewrite add_Prim2SF.
  apply SFadd_not_nan;
    auto using prec_pos64, prec_lt_emax64, Prim2SF_valid, is_finite_Prim2SF.
  apply not_nan_Prim2SF. now apply is_finite_not_nan.
Qed.

(** The two derived amounts that pass the tests [< 0] are [>= 0]. *)
Lemma derived_amounts_nonneg it mi mc ft :
  is_nan it = false -> is_finite mi = true -> is_finite mc = true ->
  is_finite ft = true ->
  (it <? 0)%float = false -> (mi <? 0)%float = false -> (mc <? 0)%float = false ->
  (ft <? 0)%float = false -> (it <? mi)%float = false ->
  (ft - (it - mi) <? 0)%float = false ->
  ((mi + mc) - (ft - (it - mi)) <? 0)%float = false ->
  (0 <=? ft - (it - mi))%float = true
  /\ (0 <=? (mi + mc) - (ft - (it - mi)))%float = true.
Proof.
  intros Nit Fmi Fmc Fft Pit Pmi Pmc Pft Hex Hr Hc.
  pose proof (nonneg_of_ltb it Pit Nit) as Git.
  pose proof (nonneg_of_ltb mi Pmi (is_finite_not_nan _ Fmi)) as Gmi.
  pose proof (nonneg_of_ltb mc Pmc (is_finite_not_nan _ Fmc)) as Gmc.
  pose proof (nonneg_of_ltb ft Pft (is_finite_not_nan _ Fft)) as Gft.
  apply is_finite_Prim2SF in Fmi, Fmc, Fft.
  assert (Rnum : Prim2SF (ft - (it - mi)) <> S754_nan
                 /\ Prim2SF (ft - (it - mi)) <> S754_infinity false).
  { destruct (Format.finite_or_zero (Prim2SF it)) eqn:Fit.
    - rewrite (ltb_ord it mi Git Gmi) in Hex. apply Z.ltb_ge in Hex.
      destruct (SFsub_nonneg prec emax prec_pos64
                  (Prim2SF it) (Prim2SF mi) (Prim2SF_valid _) (Prim2SF_valid _)
                  Git Gmi Fit Fmi) as (_ & _ & Ho).
      destruct (Ho Hex) as [Go Fo]. rewrite <- sub_Prim2SF in Go, Fo.
      destruct (SFsub_nonneg prec emax prec_pos64
                  (Prim2SF ft) (Prim2SF (it - mi)) (Prim2SF_valid _) (Prim2SF_valid _)
                  Gft Go Fft Fo) as (R1 & R2 & _).
      rewrite <- sub_Prim2SF in R1, R2. split; assumption.
    - exfalso. rewrite ltb_spec, Prim2SF_zero, !sub_Prim2SF in Hr.
      unfold nonneg64 in Git. apply not_nan_Prim2SF in Nit.
      destruct (Prim2SF it) as [s|[|]| |[|] m e]; try discriminate; try contradiction.
      destruct (Prim2SF mi) as [s1|s1| |s1 m1 e1]; try discriminate Fmi;
        destruct (Prim2SF ft) as [s2|s2| |s2 m2 e2]; try discriminate Fft;
        discriminate Hr. }
  destruct Rnum as [R1 R2]. split.
  - apply leb_of_number; assumption.
  - apply leb_of_number; [assumption|]. rewrite sub_Prim2SF.
    apply SFsub_not_nan;
      auto using prec_pos64, prec_lt_emax64, Prim2SF_valid.
    apply add_nonneg; assumption.
Qed.

(** The request of a quick calculation on non-negative amounts passes the
    tests on [initial_total], [my_initial] and [my_charge]. *)
Lemma quick_amounts_pass o b c :
  (0 <=? o)%float = true -> (0 <=? b)%float = true -> (0 <=? c)%float = true ->
  ((o + b) + c <? 0)%float = false /\ (b <? 0)%float = false
  /\ (c <? 0)%float = false /\ ((o + b) + c <? b)%float = false.
Proof.
  intros Ho Hb Hc. apply leb_zero_nonneg in Ho, Hb, Hc.
  destruct (add_nonneg o b Ho Hb) as (G1 & _ & L1).
  destruct (add_nonneg (o + b) c G1 Hc) as (G2 & L2 & _).
  repeat split.
  - apply ltb_zero_false. now left.
  - apply ltb_zero_false. now left.
  - apply ltb_zero_false. now left.
  - rewrite (ltb_ord _ _ G2 Hb). apply Z.ltb_ge. lia.
Qed.

(** ** What the store does to a number *)

Lemma Prim2SF_stored x :
  Prim2SF (stored_float x) = Format.forget_zero_sign (Prim2SF x).
Proof.
  unfold stored_float, is_zero. rewrite eqb_spec.
  change (Prim2SF zero) with (S754_zero false).
  destruct (Prim2SF x) as [s|[|]| |[|] m e] eqn:E; cbv [SFeqb SFcompare];
    try (rewrite E; reflexivity); reflexivity.
Qed.

Lemma valid_emin s m e :
  valid_binary (S754_finite s m e) = true -> SpecFloat.emin prec emax <= e.
Proof.
  intros V. apply (valid_finite prec emax prec_pos64) in V. tauto.
Qed.

Lemma pack_forget s m e :
  Format.forget_zero_sign (Format.pack prec emax s m e) = Format.pack prec emax s m e.
Proof. unfold Format.pack. now destruct (e <=? emax - prec). Qed.

Lemma binary_normalize_forget m e :
  SpecFloat.emin prec emax <= e ->
  Format.forget_zero_sign (binary_normalize prec emax m e false)
  = binary_normalize prec emax m e false.
Proof.
  intros He. destruct m as [|p|p]; cbn [binary_normalize]; [reflexivity| |].
  - destruct (binary_round_spec prec emax prec_pos64 false p e He) as (m'' & e'' & _ & ->).
    apply pack_forget.
  - destruct (binary_round_spec prec emax prec_pos64 true p e He) as (m'' & e'' & _ & ->).
    apply pack_forget.
Qed.

(** A difference does not depend on the signs of zeros, but for its own. *)
Lemma SFsub_forget x y :
  valid_binary x = true -> valid_binary y = true ->
  SFsub prec emax (Format.forget_zero_sign x) (Format.forget_zero_sign y)
  = Format.forget_zero_sign (SFsub prec emax x y).
Proof.
  intros Vx Vy.
  destruct x as [[|]|[|]| |sx mx ex]; destruct y as [[|]|[|]| |sy my ey];
    try reflexivity.
  cbn [Format.forget_zero_sign SFsub]. symmetry. apply binary_normalize_forget.
  apply valid_emin in Vx, Vy. lia.
Qed.

Lemma SFadd_forget x y :
  valid_binary x = true -> valid_binary y = true ->
  SFadd prec emax (Format.forget_zero_sign x) (Format.forget_zero_sign y)
  = Format.forget_zero_sign (SFadd prec emax x y).
Proof.
  intros Vx Vy.
  destruct x as [[|]|[|]| |sx mx ex]; destruct y as [[|]|[|]| |sy my ey];
    try reflexivity.
  cbn [Format.forget_zero_sign SFadd]. symmetry. apply binary_normalize_forget.
  apply valid_emin in Vx, Vy. lia.
Qed.

(** The store commutes with the two operations of the engine. *)
Lemma stored_sub a b : stored_float (a - b) = (stored_float a - stored_float b)%float.
Proof.
  apply Prim2SF_inj.
  rewrite Prim2SF_stored, !sub_Prim2SF, !Prim2SF_stored.
  symmetry. apply SFsub_forget; apply Prim2SF_valid.
Qed.

Lemma stored_add a b : stored_float (a + b) = (stored_float a + stored_float b)%float.
Proof.
  apply Prim2SF_inj.
  rewrite Prim2SF_stored, !add_Prim2SF, !Prim2SF_stored.
  symmetry. apply SFadd_forget; apply Prim2SF_valid.
Qed.

(** It changes no comparison. *)
Lemma stored_ltb a b : (stored_float a <? stored_float b)%float = (a <? b)%float.
Proof.
  rewrite !ltb_spec, !Prim2SF_stored.
  destruct (Prim2SF a) as [[|]|[|]| |sa ma ea]; destruct (Prim2SF b) as [[|]|[|]| |sb mb eb];
    reflexivity.
Qed.

Lemma stored_ltb_zero a : (stored_float a <? 0)%float = (a <? 0)%float.
Proof.
  rewrite !ltb_spec, Prim2SF_stored, Prim2SF_zero.
  destruct (Prim2SF a) as [[|]|[|]| |sa ma ea]; reflexivity.
Qed.

Lemma stored_leb_zero a : (0 <=? stored_float a)%float = (0 <=? a)%float.
Proof.
  rewrite !leb_spec, Prim2SF_stored, Prim2SF_zero.
  destruct (Prim2SF a) as [[|]|[|]| |sa ma ea]; reflexivity.
Qed.


(** ** The calculation engine, case by case *)

(** [calculate_money] read through the named tests and values. *)
Lemma calculate_money_unfold repr now data db :
  calculate_money repr now data db =
  if negative_amount data
  then (Raise (mkHTTPException 400 detail_negative_amount), db)
  else if initial_exceeds data
  then (Raise (mkHTTPException 400 detail_initial_exceeds), db)
  else if negative_remaining data
  then (Raise (mkHTTPException 400 detail_negative_remaining), db)
  else if negative_consumed data
  then (Raise (mkHTTPException 400 detail_negative_consumed), db)
  else store_and_answer repr now data db.
Proof.
  unfold calculate_money, store_and_answer.
  fold (negative_amount data) (initial_exceeds data).
  destruct (negative_amount data); [reflexivity|].
  destruct (initial_exceeds data); [reflexivity|].
  fold (derived_others_money data) (derived_my_after_charge data).
  fold (derived_my_remaining data). fold (derived_my_consumed data).
  fold (negative_remaining data) (negative_consumed data).
  destruct (negative_remaining data); [reflexivity|].
  destruct (negative_consumed data); [reflexivity|].
  unfold add_and_commit.
  change (not_null _) with (storable data).
  destruct (storable data); reflexivity.
Qed.

Lemma passes_validation_true data :
  passes_validation data = true <->
  negative_amount data = false /\ initial_exceeds data = false
  /\ negative_remaining data = false /\ negative_consumed data = false.
Proof.
  unfold passes_validation.
  rewrite !andb_true_iff, !negb_true_iff. tauto.
Qed.

Lemma calculate_money_valid repr now data db :
  passes_validation data = true ->
  calculate_money repr now data db = store_and_answer repr now data db.
Proof.
  intros H. apply passes_validation_true in H as (H1 & H2 & H3 & H4).
  rewrite calculate_money_unfold, H1, H2, H3, H4. reflexivity.
Qed.

Lemma calculate_money_invalid repr now data db :
  passes_validation data = false ->
  exists e, calculate_money repr now data db = (Raise e, db).
Proof.
  intros H. rewrite calculate_money_unfold.
  unfold passes_validation in H.
  destruct (negative_amount data); [eauto|].
  destruct (initial_exceeds data); [eauto|].
  destruct (negative_remaining data); [eauto|].
  destruct (negative_consumed data); [eauto|].
  discriminate H.
Qed.

(** The tables after a call: one row more, or the same. *)
Lemma calculate_money_tables repr now data db :
  snd (calculate_money repr now data db)
  = if passes_validation data && storable data
    then mkSession (calculation_history db ++ [stored_row now data db])
           (saved_settings db)
    else db.
Proof.
  destruct (passes_validation data) eqn:V.
  - rewrite (calculate_money_valid _ _ _ _ V). unfold store_and_answer.
    now destruct (storable data).
  - destruct (calculate_money_invalid repr now data db V) as [e ->]. reflexivity.
Qed.

(** A call that returns passed the four tests and stored the row of its
    request. *)
Lemma calculate_money_stores repr now data db res db' :
  calculate_money repr now data db = (Return res, db') ->
  passes_validation data = true /\ storable data = true
  /\ res = CalculationResult.mk (Some (next_id (calculation_history db)))
             (derived_others_money data) (derived_my_remaining data)
             (derived_my_consumed data) (trace repr data) (Some now)
  /\ db' = mkSession (calculation_history db ++ [stored_row now data db])
             (saved_settings db).
Proof.
  intros H. destruct (passes_validation data) eqn:V.
  - rewrite (calculate_money_valid _ _ _ _ V) in H. unfold store_and_answer in H.
    destruct (storable data); [|discriminate H].
    injection H as <- <-. auto.
  - destruct (calculate_money_invalid repr now data db V) as [e E].
    rewrite E in H. discriminate H.
Qed.

Lemma calculate_money_storable repr now data db :
  passes_validation data = true -> storable data = true ->
  calculate_money repr now data db
  = (Return
       (CalculationResult.mk (Some (next_id (calculation_history db)))
          (derived_others_money data) (derived_my_remaining data)
          (derived_my_consumed data) (trace repr data) (Some now)),
     mkSession (calculation_history db ++ [stored_row now data db])
       (saved_settings db)).
Proof.
  intros V S. rewrite (calculate_money_valid _ _ _ _ V).
  unfold store_and_answer. now rewrite S.
Qed.

(** The equations of the data model hold of the row as the table holds it. *)
Lemma stored_row_derivation now data db : derivation_holds (stored_row now data db).
Proof.
  unfold derivation_holds, stored_row, stored_record, record_of.
  cbn [CalculationHistory.others_money CalculationHistory.initial_total
       CalculationHistory.my_initial CalculationHistory.my_remaining
       CalculationHistory.final_total CalculationHistory.my_consumed
       CalculationHistory.my_charge].
  unfold derived_my_consumed, derived_my_remaining, derived_my_after_charge,
    derived_others_money.
  now rewrite !stored_sub, !stored_add, ?stored_sub.
Qed.

(** ** The latest row *)

Lemma latest_of_nil_iff rows : latest_of rows = None <-> rows = [].
Proof.
  destruct rows as [|r rest]; simpl; [tauto|].
  split; [|discriminate].
  destruct (latest_of rest) as [r'|]; [|discriminate].
  destruct (_ <? _); discriminate.
Qed.

Lemma latest_of_In rows r : latest_of rows = Some r -> In r rows.
Proof.
  revert r. induction rows as [|x rest IH]; simpl; intros r H; [discriminate|].
  destruct (latest_of rest) as [r'|].
  - destruct (_ <? _); injection H as <-; auto.
  - injection H as <-; auto.
Qed.

Lemma latest_of_newest rows r :
  latest_of rows = Some r ->
  forall r', In r' rows -> CalculationHistory.created_at r' <= CalculationHistory.created_at r.
Proof.
  revert r. induction rows as [|x rest IH]; simpl; intros r H r' Hin; [contradiction|].
  destruct (latest_of rest) as [m|] eqn:E.
  - specialize (IH m eq_refl).
    destruct (CalculationHistory.created_at x <? CalculationHistory.created_at m) eqn:C.
    + apply Z.ltb_lt in C. injection H as <-.
      destruct Hin as [<-|Hin]; [lia|auto].
    + apply Z.ltb_ge in C. injection H as <-.
      destruct Hin as [<-|Hin]; [lia|]. specialize (IH r' Hin). lia.
  - apply latest_of_nil_iff in E. subst rest. injection H as <-.
    destruct Hin as [<-|[]]. lia.
Qed.

(** ** Primary keys *)

Lemma max_id_ge rows r : In r rows -> CalculationHistory.id r <= max_id rows.
Proof.
  unfold max_id. induction rows as [|x rest IH]; simpl; [contradiction|].
  intros [<-|Hin]; [lia|]. specialize (IH Hin). lia.
Qed.

(** Inserting keeps primary keys unique. *)
Lemma calculate_money_unique_ids repr now data db :
  unique_ids db -> unique_ids (snd (calculate_money repr now data db)).
Proof.
  intros U. rewrite calculate_money_tables.
  destruct (passes_validation data && storable data); [|exact U].
  unfold unique_ids. simpl. rewrite map_app. simpl.
  apply NoDup_app; [exact U| |].
  - constructor; [intros []|constructor].
  - intros a Ha [Hb|[]]. subst a. apply in_map_iff in Ha as (r & Hr & Hin).
    apply max_id_ge in Hin. unfold next_id in Hr. lia.
Qed.

(** ** C3: the derivation *)

(** C3 as stated does not hold of every request that passes validation.  A
    request whose [initial_total] is NaN passes the four tests, none of which
    a NaN fails, and is answered with the error of the commit: no value and
    no trace line comes back, and no row is stored. *)
Lemma calculate_money_nan_not_answered :
  passes_validation (CardCalculation.mk nan 0 0 0 None) = true
  /\ calculate_money (fun _ => EmptyString) 1 (CardCalculation.mk nan 0 0 0 None)
       empty_session
     = (IntegrityError, empty_session).
Proof. split; reflexivity. Qed.

(** C3, amended.  A request that passes validation and has no NaN among its
    four amounts and three derived values is answered with the derived values,
    computed in the order of the source: [others_money] is
    [initial_total - my_initial], [my_after_charge] is [my_initial + my_charge],
    [total_after_charge] is [initial_total + my_charge], [my_remaining] is
    [final_total - others_money] and [my_consumed] is
    [my_after_charge - my_remaining]; the trace has one line per step, in that
    order, and the row is stored.  A request that passes validation with a
    NaN among them gets the error of the commit and nothing is stored.  For
    100, 40, 10, 80 the answer is 60, 20, 30 and the row is stored. *)
Theorem calculate_money_derivation repr now db :
  (forall data,
      passes_validation data = true -> storable data = true ->
      let initial_total := CardCalculation.initial_total data in
      let my_initial := CardCalculation.my_initial data in
      let my_charge := CardCalculation.my_charge data in
      let final_total := CardCalculation.final_total data in
      let others_money := (initial_total - my_initial)%float in
      let my_after_charge := (my_initial + my_charge)%float in
      let total_after_charge := (initial_total + my_charge)%float in
      let my_remaining := (final_total - others_money)%float in
      let my_consumed := (my_after_charge - my_remaining)%float in
      exists res,
        calculate_money repr now data db
        = (Return res,
           mkSession
             (calculation_history db
                ++ [CalculationHistory.mk (next_id (calculation_history db))
                      (stored_float initial_total) (stored_float my_initial)
                      (stored_float my_charge) (stored_float final_total)
                      (stored_float others_money) (stored_float my_remaining)
                      (stored_float my_consumed)
                      (match CardCalculation.note data with
                       | Some s => s
                       | None => EmptyString
                       end)
                      now])
             (saved_settings db))
        /\ CalculationResult.others_money res = others_money
        /\ CalculationResult.my_remaining res = my_remaining
        /\ CalculationResult.my_consumed res = my_consumed
        /\ CalculationResult.calculation_steps res
           = [ "别人的金额 = 饭卡初始总额 - 你的初始金额 = "
                 ++ repr initial_total ++ " - " ++ repr my_initial
                 ++ " = " ++ repr others_money;
               "你充值后的金额 = 你的初始金额 + 充值金额 = "
                 ++ repr my_initial ++ " + " ++ repr my_charge
                 ++ " = " ++ repr my_after_charge;
               "充值后饭卡总额 = 初始总额 + 充值金额 = "
                 ++ repr initial_total ++ " + " ++ repr my_charge
                 ++ " = " ++ repr total_after_charge;
               "你剩余的金额 = 打饭后总余额 - 别人的金额 = "
                 ++ repr final_total ++ " - " ++ repr others_money
                 ++ " = " ++ repr my_remaining;
               "你消费的金额 = 充值后你的金额 - 你剩余的金额 = "
                 ++ repr my_after_charge ++ " - " ++ repr my_remaining
                 ++ " = " ++ repr my_consumed ]
        /\ CalculationResult.id res = Some (next_id (calculation_history db))
        /\ CalculationResult.created_at res = Some now)
  /\ (forall data,
         passes_validation data = true -> storable data = false ->
         calculate_money repr now data db = (IntegrityError, db))
  /\ exists steps,
      calculate_money repr now example_request db
      = (Return
           (CalculationResult.mk (Some (next_id (calculation_history db)))
              60 20 30 steps (Some now)),
         mkSession
           (calculation_history db
              ++ [CalculationHistory.mk (next_id (calculation_history db))
                    100 40 10 80 60 20 30 EmptyString now])
           (saved_settings db))
      /\ List.length steps = 5%nat.
Proof.
  split; [|split].
  - intros data V S. cbv zeta.
    rewrite (calculate_money_storable repr now data db V S).
    eexists. split; [reflexivity|]. repeat split.
  - intros data V S. rewrite (calculate_money_valid repr now data db V).
    unfold store_and_answer. now rewrite S.
  - exists (trace repr example_request).
    rewrite (calculate_money_storable repr now example_request db eq_refl eq_refl).
    split; reflexivity.
Qed.

(** The example request passes validation, and the general statement applies to it. *)
Lemma calculate_money_derivation_witness :
  passes_validation example_request = true
  /\ storable example_request = true
  /\ exists res,
      calculate_money (fun _ => EmptyString) 1 example_request empty_session
      = (Return res, mkSession [example_row] [])
      /\ CalculationResult.others_money res = 60%float
      /\ CalculationResult.my_remaining res = 20%float
      /\ CalculationResult.my_consumed res = 30%float.
Proof.
  split; [reflexivity|]. split; [reflexivity|].
  destruct (proj1 (calculate_money_derivation (fun _ => EmptyString) 1 empty_session)
              example_request eq_refl eq_refl)
    as (res & Hcall & Ho & Hr & Hc & _).
  exists res. repeat split; assumption.
Defined.

(** ** C4: the order of the validation rules *)

Lemma details_distinct :
  NoDup [ detail_negative_amount; detail_initial_exceeds;
          detail_negative_remaining; detail_negative_consumed ].
Proof.
  repeat constructor; simpl; intuition discriminate.
Qed.

(** C4. The four rules are tested in the order of the source, each with a
    message of its own: a negative amount is refused first; then
    [my_initial > initial_total], a test on the inputs alone; then a negative
    [my_remaining]; then a negative [my_consumed].  A request that breaks a
    rule gets the message of the first rule it breaks, whatever later rules
    it breaks as well; a request that breaks none gets none of them. *)
Theorem validation_order repr now data db :
  (negative_amount data = true ->
   calculate_money repr now data db
   = (Raise (mkHTTPException 400 detail_negative_amount), db))
  /\ (negative_amount data = false -> initial_exceeds data = true ->
      calculate_money repr now data db
      = (Raise (mkHTTPException 400 detail_initial_exceeds), db))
  /\ (negative_amount data = false -> initial_exceeds data = false ->
      negative_remaining data = true ->
      calculate_money repr now data db
      = (Raise (mkHTTPException 400 detail_negative_remaining), db))
  /\ (negative_amount data = false -> initial_exceeds data = false ->
      negative_remaining data = false -> negative_consumed data = true ->
      calculate_money repr now data db
      = (Raise (mkHTTPException 400 detail_negative_consumed), db))
  /\ (negative_amount data = false -> initial_exceeds data = false ->
      negative_remaining data = false -> negative_consumed data = false ->
      forall e, fst (calculate_money repr now data db) <> Raise e)
  /\ NoDup [ detail_negative_amount; detail_initial_exceeds;
             detail_negative_remaining; detail_negative_consumed ].
Proof.
  rewrite calculate_money_unfold.
  repeat split; try exact details_distinct; intros;
    repeat match goal with H : _ = _ |- _ => rewrite H end; try reflexivity.
  unfold store_and_answer. destruct (storable data); discriminate.
Qed.

(** A request with a negative total and a share above it breaks the first two
    rules and gets the first message; one with a share above a total of 10
    gets the second; one whose balance comes out negative gets the third; one
    whose consumption comes out negative gets the fourth. *)
Lemma validation_order_witness :
  calculate_money (fun _ => EmptyString) 1
    (CardCalculation.mk (-1) 5 0 0 None) empty_session
  = (Raise (mkHTTPException 400 detail_negative_amount), empty_session)
  /\ calculate_money (fun _ => EmptyString) 1
       (CardCalculation.mk 10 20 0 0 None) empty_session
     = (Raise (mkHTTPException 400 detail_initial_exceeds), empty_session)
  /\ calculate_money (fun _ => EmptyString) 1
       (CardCalculation.mk 100 40 10 50 None) empty_session
     = (Raise (mkHTTPException 400 detail_negative_remaining), empty_session)
  /\ calculate_money (fun _ => EmptyString) 1
       (CardCalculation.mk 100 40 10 200 None) empty_session
     = (Raise (mkHTTPException 400 detail_negative_consumed), empty_session).
Proof.
  split; [|split; [|split]].
  - apply (proj1 (validation_order (fun _ => EmptyString) 1
                    (CardCalculation.mk (-1) 5 0 0 None) empty_session)).
    reflexivity.
  - apply (proj1 (proj2 (validation_order (fun _ => EmptyString) 1
                           (CardCalculation.mk 10 20 0 0 None) empty_session)));
      reflexivity.
  - apply (proj1 (proj2 (proj2 (validation_order (fun _ => EmptyString) 1
                                  (CardCalculation.mk 100 40 10 50 None)
                                  empty_session))));
      reflexivity.
  - apply (proj1 (proj2 (proj2 (proj2 (validation_order (fun _ => EmptyString) 1
                                         (CardCalculation.mk 100 40 10 200 None)
                                         empty_session)))));
      reflexivity.
Defined.

(** ** C5: what is written *)

(** C5 as stated does not hold of every request that passes the four rules.
    A request whose [final_total] is NaN passes them, and nothing is
    appended: the commit fails. *)
Lemma calculate_money_nan_appends_nothing :
  passes_validation (CardCalculation.mk 100 40 10 nan None) = true
  /\ calculate_money (fun _ => EmptyString) 1 (CardCalculation.mk 100 40 10 nan None)
       empty_session
     = (IntegrityError, empty_session).
Proof. split; reflexivity. Qed.

(** C5, amended.  A call whose request passes the four rules and has no NaN
    among its amounts appends exactly one row to [calculation_history] and
    touches nothing else; one whose request passes the four rules with a NaN
    among them gets the error of the commit and leaves both tables as they
    were; one whose request breaks a rule, the two tests on derived values
    included, raises and leaves both tables as they were. *)
Theorem calculate_money_appends_one_or_nothing repr now data db :
  (passes_validation data = true -> storable data = true ->
   exists res rec,
     calculate_money repr now data db
     = (Return res,
        mkSession (calculation_history db ++ [rec]) (saved_settings db)))
  /\ (passes_validation data = true -> storable data = false ->
      calculate_money repr now data db = (IntegrityError, db))
  /\ (passes_validation data = false ->
      exists e, calculate_money repr now data db = (Raise e, db))
  /\ (negative_remaining data = true \/ negative_consumed data = true ->
      passes_validation data = false).
Proof.
  split; [|split; [|split]].
  - intros V S. rewrite (calculate_money_storable repr now data db V S). eauto.
  - intros V S. rewrite (calculate_money_valid repr now data db V).
    unfold store_and_answer. now rewrite S.
  - apply calculate_money_invalid.
  - unfold passes_validation. intros [H|H]; rewrite H;
      rewrite ?andb_false_r; reflexivity.
Qed.

(** The example request is stored as one row; a request whose balance comes
    out negative is not stored. *)
Lemma calculate_money_appends_one_or_nothing_witness :
  (exists res rec,
      calculate_money (fun _ => EmptyString) 1 example_request empty_session
      = (Return res, mkSession ([] ++ [rec]) []))
  /\ exists e,
      calculate_money (fun _ => EmptyString) 1
        (CardCalculation.mk 100 40 10 50 None) empty_session
      = (Raise e, empty_session).
Proof.
  split.
  - apply (proj1 (calculate_money_appends_one_or_nothing (fun _ => EmptyString) 1
                    example_request empty_session));
      reflexivity.
  - apply (proj1 (proj2 (proj2 (calculate_money_appends_one_or_nothing
                                  (fun _ => EmptyString) 1
                                  (CardCalculation.mk 100 40 10 50 None)
                                  empty_session)))).
    reflexivity.
Defined.

(** ** C6: quick calculation without history *)

(** C6. With no row in [calculation_history], [quick_calculate] raises the
    no-history error, whatever its arguments, and leaves the tables as they
    were. *)
Theorem quick_calculate_no_history repr now charge_amount final_total note db :
  calculation_history db = [] ->
  quick_calculate repr now charge_amount final_total note db
  = (Raise (mkHTTPException 400 detail_no_history), db).
Proof.
  intros H. unfold quick_calculate, latest. rewrite H. reflexivity.
Qed.

Lemma quick_calculate_no_history_witness :
  quick_calculate (fun _ => EmptyString) 1 5 70 EmptyString empty_session
  = (Raise (mkHTTPException 400 detail_no_history), empty_session).
Proof.
  apply (quick_calculate_no_history (fun _ => EmptyString) 1 5 70 EmptyString
           empty_session).
  reflexivity.
Defined.

(** ** C9: the defaults view *)

(** C9. With history, [get_defaults] returns [others_money] and
    [my_remaining] of a stored row that no row is newer than; without, it
    returns the fallback 7.0 and 0.0. *)
Theorem get_defaults_latest_or_fallback db :
  (calculation_history db = [] ->
   get_defaults db = Defaults.mk fallback_others_money 0)
  /\ (calculation_history db <> [] ->
      exists r,
        In r (calculation_history db)
        /\ (forall r', In r' (calculation_history db) ->
                       CalculationHistory.created_at r' <= CalculationHistory.created_at r)
        /\ get_defaults db
           = Defaults.mk (CalculationHistory.others_money r)
               (CalculationHistory.my_remaining r)).
Proof.
  unfold get_defaults, latest. split.
  - intros H. rewrite H. reflexivity.
  - intros H. destruct (latest_of (calculation_history db)) as [r|] eqn:E.
    + exists r. split; [eapply latest_of_In; eauto|].
      split; [apply latest_of_newest; assumption|reflexivity].
    + apply latest_of_nil_iff in E. contradiction.
Qed.

Lemma get_defaults_latest_or_fallback_witness :
  get_defaults empty_session = Defaults.mk 7 0
  /\ get_defaults (mkSession [example_row] []) = Defaults.mk 60 20.
Proof.
  split.
  - apply (proj1 (get_defaults_latest_or_fallback empty_session)). reflexivity.
  - destruct (proj2 (get_defaults_latest_or_fallback (mkSession [example_row] [])))
      as (r & [<-|[]] & _ & H); [discriminate|exact H].
Defined.

(** ** C8: deleting *)

Lemma find_by_id_None record_id db :
  find_by_id record_id db = None <->
  forall r, In r (calculation_history db) -> CalculationHistory.id r <> record_id.
Proof.
  unfold find_by_id. split.
  - intros H r Hin Hid.
    apply (find_none _ _ H) in Hin. apply Z.eqb_neq in Hin. contradiction.
  - intros H. destruct (find _ _) as [r|] eqn:E; [|reflexivity].
    apply find_some in E as [Hin Hid]. apply Z.eqb_eq in Hid.
    exfalso. exact (H r Hin Hid).
Qed.

Lemma find_by_id_Some record_id db r :
  find_by_id record_id db = Some r ->
  In r (calculation_history db) /\ CalculationHistory.id r = record_id.
Proof.
  unfold find_by_id. intros H. apply find_some in H as [Hin Hid].
  apply Z.eqb_eq in Hid. auto.
Qed.

(** Removing the rows of one key from a table with unique keys removes one row. *)
Lemma filter_unique_id rows k :
  NoDup (map CalculationHistory.id rows) ->
  (exists r, In r rows /\ CalculationHistory.id r = k) ->
  S (List.length (filter (fun r => negb (CalculationHistory.id r =? k)) rows))
  = List.length rows.
Proof.
  induction rows as [|x rest IH]; simpl; intros U (r & Hin & Hid); [contradiction|].
  inversion U as [|? ? Hx U']; subst.
  destruct (CalculationHistory.id x =? CalculationHistory.id r) eqn:E; simpl.
  - f_equal. apply Z.eqb_eq in E.
    assert (Hall : forall y, In y rest ->
                negb (CalculationHistory.id y =? CalculationHistory.id r) = true).
    { intros y Hy. apply negb_true_iff, Z.eqb_neq. intros Heq.
      apply Hx. rewrite E, <- Heq. now apply in_map. }
    clear -Hall. induction rest as [|y rest IH]; simpl; [reflexivity|].
    rewrite (Hall y (or_introl eq_refl)). simpl. f_equal.
    apply IH. intros z Hz. apply Hall. now right.
  - f_equal. apply IH; [assumption|].
    destruct Hin as [->|Hin]; [rewrite Z.eqb_refl in E; discriminate|].
    exists r. auto.
Qed.

(** C8 as stated does not hold of every key.  A key outside the 64-bit
    integers belongs to no row, and is not answered with the 404 error:
    binding it to the query fails. *)
Lemma delete_history_out_of_range :
  (forall r, In r (calculation_history empty_session) ->
             CalculationHistory.id r <> 2 ^ 63)
  /\ delete_history (2 ^ 63) empty_session = (OverflowError, empty_session)
  /\ fst (delete_history (2 ^ 63) empty_session)
     <> Raise (mkHTTPException 404 detail_not_found).
Proof.
  split; [intros r []|]. split; [reflexivity|discriminate].
Qed.

(** C8, amended.  For a key within the 64-bit integers, [delete_history]
    raises the 404 error exactly when no row has the key, and then changes
    nothing; when a row has it, the rows left are the rows of other keys, the
    settings are untouched, and (keys being unique) the table is one row
    shorter.  For a key outside them the call fails with [OverflowError] and
    changes nothing.  [clear_all_history] empties both tables, and
    [get_defaults] then returns the fallback. *)
Theorem delete_history_and_clear db record_id :
  (fits_int64 record_id = true ->
   ((forall r, In r (calculation_history db) -> CalculationHistory.id r <> record_id)
    <-> fst (delete_history record_id db) = Raise (mkHTTPException 404 detail_not_found))
   /\ ((forall r, In r (calculation_history db) -> CalculationHistory.id r <> record_id)
       -> snd (delete_history record_id db) = db)
   /\ ((exists r, In r (calculation_history db) /\ CalculationHistory.id r = record_id)
       -> fst (delete_history record_id db) = Return message_deleted
          /\ saved_settings (snd (delete_history record_id db)) = saved_settings db
          /\ (forall r, In r (calculation_history (snd (delete_history record_id db)))
                        <-> In r (calculation_history db)
                            /\ CalculationHistory.id r <> record_id)
          /\ (unique_ids db ->
              S (List.length (calculation_history (snd (delete_history record_id db))))
              = List.length (calculation_history db))))
  /\ (fits_int64 record_id = false ->
      delete_history record_id db = (OverflowError, db))
  /\ calculation_history (snd (clear_all_history db)) = []
  /\ saved_settings (snd (clear_all_history db)) = []
  /\ get_defaults (snd (clear_all_history db)) = Defaults.mk fallback_others_money 0.
Proof.
  unfold delete_history.
  split; [|split; [intros ->; reflexivity|repeat split]].
  intros ->.
  destruct (find_by_id record_id db) as [record|] eqn:E.
  - apply find_by_id_Some in E as [Hin Hid].
    split; [|split].
    + split; [|discriminate]. intros H. exfalso. exact (H record Hin Hid).
    + intros H. exfalso. exact (H record Hin Hid).
    + intros _. simpl. rewrite Hid. repeat split.
      * apply filter_In in H. tauto.
      * apply filter_In in H as [_ H]. now apply negb_true_iff, Z.eqb_neq in H.
      * intros [H1 H2]. apply filter_In. split; [assumption|].
        now apply negb_true_iff, Z.eqb_neq.
      * intros U. apply filter_unique_id; [exact U|]. exists record. auto.
  - pose proof (proj1 (find_by_id_None record_id db) E) as Hnone.
    split; [|split].
    + split; [reflexivity|intros _; exact Hnone].
    + reflexivity.
    + intros (r & Hin & Hid). exfalso. exact (Hnone r Hin Hid).
Qed.

(** Deleting key 2 from the example table raises; deleting key 1 empties it;
    deleting key 2 ^ 63 fails. *)
Lemma delete_history_and_clear_witness :
  fst (delete_history 2 (mkSession [example_row] []))
  = Raise (mkHTTPException 404 detail_not_found)
  /\ S (List.length
          (calculation_history (snd (delete_history 1 (mkSession [example_row] [])))))
     = 1%nat
  /\ delete_history (2 ^ 63) (mkSession [example_row] [])
     = (OverflowError, mkSession [example_row] []).
Proof.
  split; [|split].
  - destruct (proj1 (delete_history_and_clear (mkSession [example_row] []) 2) eq_refl)
      as (H & _).
    apply H. intros r [<-|[]]. discriminate.
  - destruct (proj1 (delete_history_and_clear (mkSession [example_row] []) 1) eq_refl)
      as (_ & _ & H).
    destruct H as (_ & _ & _ & H).
    + exists example_row. split; [left|]; reflexivity.
    + apply H. unfold unique_ids. simpl. repeat constructor. intros [].
  - apply (proj1 (proj2 (delete_history_and_clear (mkSession [example_row] []) (2 ^ 63)))).
    reflexivity.
Defined.

(** ** C1 and C2: what a quick calculation does to [others_money] *)

(** A quick calculation is the full calculation of the request built from the
    latest row. *)
Lemma quick_calculate_delegates repr now charge_amount final_total note db latest_row :
  latest db = Some latest_row ->
  quick_calculate repr now charge_amount final_total note db
  = calculate_money repr now
      (quick_request latest_row charge_amount final_total note) db.
Proof. intros H. unfold quick_calculate. rewrite H. reflexivity. Qed.

Lemma example_session_eq repr : example_session repr = mkSession [example_row] [].
Proof.
  unfold example_session.
  rewrite (calculate_money_storable repr 1 example_request empty_session
             eq_refl eq_refl).
  reflexivity.
Qed.

(** C1, at the example: after the full calculation of 100, 40, 10, 80 the
    latest row has [others_money] 60; the quick calculation of a charge of 5
    and a final total of 70 then stores a row whose [others_money] is 65. *)
Theorem quick_calculate_moves_others_money repr :
  let db1 := example_session repr in
  let db2 := snd (quick_calculate repr 2 5 70 EmptyString db1) in
  option_map CalculationHistory.others_money (latest db1) = Some 60%float
  /\ is_return (fst (quick_calculate repr 2 5 70 EmptyString db1)) = true
  /\ calculation_history db2
     = [ example_row;
         CalculationHistory.mk 2 85 20 5 70 65 5 20 EmptyString 2 ]
  /\ option_map CalculationHistory.others_money (latest db2) = Some 65%float
  /\ (65 =? 60)%float = false.
Proof.
  cbv zeta. rewrite (example_session_eq repr).
  rewrite (quick_calculate_delegates repr 2 5 70 EmptyString
             (mkSession [example_row] []) example_row eq_refl).
  rewrite (calculate_money_storable repr 2
             (quick_request example_row 5 70 EmptyString)
             (mkSession [example_row] []) eq_refl eq_refl).
  repeat split.
Qed.

(** C2, at its example: with a latest row of [others_money] 60 and
    [my_remaining] 20, the quick calculation of a charge of 5 and a final
    total of 70 is the full calculation of the request 85, 20, 5, 70; the row
    it stores has [others_money] 65, [my_remaining] 5 and [my_consumed] 20. *)
Theorem quick_calculate_example repr now note db latest_row :
  latest db = Some latest_row ->
  CalculationHistory.others_money latest_row = 60%float ->
  CalculationHistory.my_remaining latest_row = 20%float ->
  quick_request latest_row 5 70 note = CardCalculation.mk 85 20 5 70 (Some note)
  /\ quick_calculate repr now 5 70 note db
     = calculate_money repr now (CardCalculation.mk 85 20 5 70 (Some note)) db
  /\ exists steps,
      quick_calculate repr now 5 70 note db
      = (Return
           (CalculationResult.mk (Some (next_id (calculation_history db)))
              65 5 20 steps (Some now)),
         mkSession
           (calculation_history db
              ++ [CalculationHistory.mk (next_id (calculation_history db))
                    85 20 5 70 65 5 20 note now])
           (saved_settings db)).
Proof.
  intros Hl Ho Hr.
  assert (Hq : quick_request latest_row 5 70 note
               = CardCalculation.mk 85 20 5 70 (Some note)).
  { unfold quick_request. rewrite Ho, Hr. reflexivity. }
  rewrite (quick_calculate_delegates _ _ _ _ _ _ _ Hl), Hq.
  split; [reflexivity|]. split; [reflexivity|].
  rewrite (calculate_money_storable repr now
             (CardCalculation.mk 85 20 5 70 (Some note)) db eq_refl eq_refl).
  eexists. reflexivity.
Qed.

Lemma quick_calculate_example_witness :
  exists steps,
    quick_calculate (fun _ => EmptyString) 2 5 70 EmptyString
      (mkSession [example_row] [])
    = (Return (CalculationResult.mk (Some 2) 65 5 20 steps (Some 2)),
       mkSession
         [ example_row; CalculationHistory.mk 2 85 20 5 70 65 5 20 EmptyString 2 ] []).
Proof.
  exact (proj2 (proj2 (quick_calculate_example (fun _ => EmptyString) 2 EmptyString
                         (mkSession [example_row] []) example_row
                         eq_refl eq_refl eq_refl))).
Defined.

(** ** C7: the rows that are stored *)

(** The derived amounts of a stored row are at least zero: they passed the
    tests against zero, and a row with a NaN is not stored. *)
Lemma stored_row_amounts now data db :
  passes_validation data = true -> storable data = true ->
  amounts_nonneg (stored_row now data db).
Proof.
  intros V S. apply passes_validation_true in V as (_ & _ & V3 & V4).
  unfold storable in S. rewrite !andb_true_iff, !negb_true_iff in S.
  destruct S as [[_ Nr] Nc].
  unfold amounts_nonneg, stored_row, stored_record, record_of.
  cbn [CalculationHistory.my_remaining CalculationHistory.my_consumed].
  rewrite !stored_leb_zero.
  split; apply leb_zero_nonneg, nonneg_of_ltb; assumption.
Qed.

(** C7. The row a successful [calculate_money] or [quick_calculate] stores
    satisfies the equations of the data model: [others_money] is
    [initial_total - my_initial], [my_remaining] is
    [final_total - others_money] and [my_consumed] is
    [(my_initial + my_charge) - my_remaining]; and [my_remaining] and
    [my_consumed] are at least zero, as Python evaluates [0 <= x]. *)
Theorem persisted_record_invariants repr now db :
  (forall data res db',
      calculate_money repr now data db = (Return res, db') ->
      exists rec,
        db' = mkSession (calculation_history db ++ [rec]) (saved_settings db)
        /\ CalculationHistory.others_money rec
           = (CalculationHistory.initial_total rec
              - CalculationHistory.my_initial rec)%float
        /\ CalculationHistory.my_remaining rec
           = (CalculationHistory.final_total rec
              - CalculationHistory.others_money rec)%float
        /\ (0 <=? CalculationHistory.my_remaining rec)%float = true
        /\ CalculationHistory.my_consumed rec
           = ((CalculationHistory.my_initial rec + CalculationHistory.my_charge rec)
              - CalculationHistory.my_remaining rec)%float
        /\ (0 <=? CalculationHistory.my_consumed rec)%float = true)
  /\ (forall charge_amount final_total note res db',
         quick_calculate repr now charge_amount final_total note db = (Return res, db') ->
         exists rec,
           db' = mkSession (calculation_history db ++ [rec]) (saved_settings db)
           /\ CalculationHistory.others_money rec
              = (CalculationHistory.initial_total rec
                 - CalculationHistory.my_initial rec)%float
           /\ CalculationHistory.my_remaining rec
              = (CalculationHistory.final_total rec
                 - CalculationHistory.others_money rec)%float
           /\ (0 <=? CalculationHistory.my_remaining rec)%float = true
           /\ CalculationHistory.my_consumed rec
              = ((CalculationHistory.my_initial rec + CalculationHistory.my_charge rec)
                 - CalculationHistory.my_remaining rec)%float
           /\ (0 <=? CalculationHistory.my_consumed rec)%float = true).
Proof.
  assert (Calc : forall data res db',
             calculate_money repr now data db = (Return res, db') ->
             exists rec,
               db' = mkSession (calculation_history db ++ [rec]) (saved_settings db)
               /\ CalculationHistory.others_money rec
                  = (CalculationHistory.initial_total rec
                     - CalculationHistory.my_initial rec)%float
               /\ CalculationHistory.my_remaining rec
                  = (CalculationHistory.final_total rec
                     - CalculationHistory.others_money rec)%float
               /\ (0 <=? CalculationHistory.my_remaining rec)%float = true
               /\ CalculationHistory.my_consumed rec
                  = ((CalculationHistory.my_initial rec
                      + CalculationHistory.my_charge rec)
                     - CalculationHistory.my_remaining rec)%float
               /\ (0 <=? CalculationHistory.my_consumed rec)%float = true).
  { intros data res db' H.
    apply calculate_money_stores in H as (V & S & _ & ->).
    exists (stored_row now data db).
    destruct (stored_row_derivation now data db) as (D1 & D2 & D3).
    destruct (stored_row_amounts now data db V S) as (A1 & A2).
    repeat split; assumption. }
  split; [exact Calc|].
  intros charge_amount final_total note res db' H. unfold quick_calculate in H.
  destruct (latest db) as [latest_row|]; [|discriminate H].
  exact (Calc _ _ _ H).
Qed.

(** The example request and the quick calculation after it store rows that
    keep the equations, with amounts of at least zero. *)
Lemma persisted_record_invariants_witness :
  (exists rec,
      mkSession [example_row] [] = mkSession ([] ++ [rec]) []
      /\ derivation_holds rec /\ amounts_nonneg rec)
  /\ exists rec,
      mkSession [ example_row; CalculationHistory.mk 2 85 20 5 70 65 5 20 EmptyString 2 ] []
      = mkSession ([example_row] ++ [rec]) []
      /\ derivation_holds rec /\ amounts_nonneg rec.
Proof.
  split.
  - destruct (proj1 (persisted_record_invariants (fun _ => EmptyString) 1 empty_session)
                example_request
                (CalculationResult.mk (Some 1) 60 20 30
                   (trace (fun _ => EmptyString) example_request) (Some 1))
                (mkSession [example_row] [])
                eq_refl)
      as (rec & E & D1 & D2 & A1 & D3 & A2).
    exists rec. split; [exact E|]. split; [exact (conj D1 (conj D2 D3))|].
    exact (conj A1 A2).
  - destruct (proj2 (persisted_record_invariants (fun _ => EmptyString) 2
                       (mkSession [example_row] []))
                5%float 70%float EmptyString
                (CalculationResult.mk (Some 2) 65 5 20
                   (trace (fun _ => EmptyString)
                      (quick_request example_row 5 70 EmptyString))
                   (Some 2))
                (mkSession
                   [ example_row;
                     CalculationHistory.mk 2 85 20 5 70 65 5 20 EmptyString 2 ] [])
                eq_refl)
      as (rec & E & D1 & D2 & A1 & D3 & A2).
    exists rec. split; [exact E|]. split; [exact (conj D1 (conj D2 D3))|].
    exact (conj A1 A2).
Defined.

(** ** C10: the input rules a quick calculation cannot break *)

(** C10. With a charge of at least zero and a latest row whose
    [others_money] and [my_remaining] are at least zero, the request
    [quick_calculate] builds passes the tests of [initial_total], [my_initial]
    and [my_charge] against zero and the test of [my_initial] against
    [initial_total]: the call raises the first error only for a negative
    [final_total], never the second, and otherwise goes on to the tests of
    the derived values and to the insert. *)
Theorem quick_request_passes_input_rules repr now charge_amount final_total note db
        latest_row :
  latest db = Some latest_row ->
  (0 <=? charge_amount)%float = true ->
  (0 <=? CalculationHistory.others_money latest_row)%float = true ->
  (0 <=? CalculationHistory.my_remaining latest_row)%float = true ->
  let data := quick_request latest_row charge_amount final_total note in
  (CardCalculation.initial_total data <? 0)%float = false
  /\ (CardCalculation.my_initial data <? 0)%float = false
  /\ (CardCalculation.my_charge data <? 0)%float = false
  /\ initial_exceeds data = false
  /\ quick_calculate repr now charge_amount final_total note db
     = if (final_total <? 0)%float
       then (Raise (mkHTTPException 400 detail_negative_amount), db)
       else if negative_remaining data
       then (Raise (mkHTTPException 400 detail_negative_remaining), db)
       else if negative_consumed data
       then (Raise (mkHTTPException 400 detail_negative_consumed), db)
       else if storable data
       then
         (Return
            (CalculationResult.mk (Some (next_id (calculation_history db)))
               (derived_others_money data) (derived_my_remaining data)
               (derived_my_consumed data) (trace repr data) (Some now)),
          mkSession (calculation_history db ++ [stored_row now data db])
            (saved_settings db))
       else (IntegrityError, db).
Proof.
  intros Hl Hc Ho Hb data.
  destruct (quick_amounts_pass _ _ _ Ho Hb Hc) as (P1 & P2 & P3 & P4).
  assert (E : initial_exceeds data = false) by exact P4.
  repeat split; try assumption.
  rewrite (quick_calculate_delegates _ _ _ _ _ _ _ Hl). fold data.
  rewrite calculate_money_unfold, E.
  assert (N : negative_amount data = (final_total <? 0)%float).
  { unfold negative_amount, data, quick_request.
    cbn [CardCalculation.initial_total CardCalculation.my_initial
         CardCalculation.my_charge CardCalculation.final_total].
    rewrite P1, P2, P3. reflexivity. }
  rewrite N. reflexivity.
Qed.

(** After the example, a charge of 5 passes the input rules. *)
Lemma quick_request_passes_input_rules_witness :
  initial_exceeds (quick_request example_row 5 70 EmptyString) = false
  /\ is_return
       (fst (quick_calculate (fun _ => EmptyString) 2 5 70 EmptyString
               (mkSession [example_row] []))) = true.
Proof.
  destruct (quick_request_passes_input_rules (fun _ => EmptyString) 2 5 70 EmptyString
              (mkSession [example_row] []) example_row
              eq_refl eq_refl eq_refl eq_refl)
    as (_ & _ & _ & E & Q).
  split; [exact E|]. rewrite Q. reflexivity.
Defined.

(** * Further properties of the handlers *)

(** ** The history listing *)

Lemma insert_desc_perm r rows : Permutation (insert_desc r rows) (r :: rows).
Proof.
  induction rows as [|x rest IH]; simpl; [reflexivity|].
  destruct (_ <? _); [|reflexivity].
  rewrite IH. apply perm_swap.
Qed.

Lemma order_by_perm rows : Permutation (order_by_created_at_desc rows) rows.
Proof.
  induction rows as [|r rest IH]; simpl; [reflexivity|].
  rewrite insert_desc_perm. now constructor.
Qed.

Lemma insert_desc_sorted r rows :
  StronglySorted
    (fun a b => CalculationHistory.created_at b <= CalculationHistory.created_at a) rows ->
  StronglySorted
    (fun a b => CalculationHistory.created_at b <= CalculationHistory.created_at a)
    (insert_desc r rows).
Proof.
  induction 1 as [|x rest S IH F]; simpl.
  - repeat constructor.
  - destruct (CalculationHistory.created_at r <? CalculationHistory.created_at x) eqn:C.
    + apply Z.ltb_lt in C. constructor; [exact IH|].
      apply Forall_forall. intros y Hy.
      apply (Permutation_in _ (insert_desc_perm r rest)) in Hy as [<-|Hy]; [lia|].
      rewrite Forall_forall in F. now apply F.
    + apply Z.ltb_ge in C. constructor; [now constructor|].
      constructor; [exact C|].
      rewrite Forall_forall in *. intros y Hy. specialize (F y Hy). lia.
Qed.

Lemma order_by_sorted rows :
  StronglySorted
    (fun a b => CalculationHistory.created_at b <= CalculationHistory.created_at a)
    (order_by_created_at_desc rows).
Proof.
  induction rows as [|r rest IH]; simpl; [constructor|].
  now apply insert_desc_sorted.
Qed.

(** The first row of the listing order is the row [.first()] returns. *)
Lemma order_by_head rows : hd_error (order_by_created_at_desc rows) = latest_of rows.
Proof.
  induction rows as [|r rest IH]; simpl; [reflexivity|].
  rewrite <- IH. destruct (order_by_created_at_desc rest) as [|x sorted]; simpl.
  - reflexivity.
  - destruct (_ <? _); reflexivity.
Qed.

Lemma sorted_firstn (R : CalculationHistory.t -> CalculationHistory.t -> Prop) n rows :
  StronglySorted R rows -> StronglySorted R (firstn n rows).
Proof.
  intros S. revert n. induction S as [|x rest S IH F]; intros [|n]; simpl;
    try constructor.
  - apply IH.
  - rewrite Forall_forall in *. intros y Hy. apply F.
    rewrite <- (firstn_skipn n rest). apply in_or_app. now left.
Qed.

Lemma sorted_split (R : CalculationHistory.t -> CalculationHistory.t -> Prop) n rows :
  StronglySorted R rows ->
  forall a b, In a (firstn n rows) -> In b (skipn n rows) -> R a b.
Proof.
  intros S. revert n. induction S as [|x rest S IH F]; intros [|n] a b Ha Hb;
    simpl in *; try contradiction.
  destruct Ha as [<-|Ha].
  - rewrite Forall_forall in F. apply F.
    rewrite <- (firstn_skipn n rest). apply in_or_app. now right.
  - eapply IH; eauto.
Qed.

(** X1. For a limit within the 64-bit integers, [get_history] returns rows
    from the newest to the oldest; they are rows of the table, none more
    often than it is stored, and every row left out is at most as new as
    every row returned. *)
Theorem get_history_newest_first limit db :
  fits_int64 limit = true ->
  exists rows,
    get_history limit db = Return rows
    /\ StronglySorted
         (fun a b => CalculationHistory.created_at b <= CalculationHistory.created_at a)
         rows
    /\ exists rest,
        Permutation (calculation_history db) (rows ++ rest)
        /\ forall r r', In r rows -> In r' rest ->
                        CalculationHistory.created_at r' <= CalculationHistory.created_at r.
Proof.
  intros B. unfold get_history. rewrite B. eexists. split; [reflexivity|].
  unfold limit_rows.
  pose proof (order_by_sorted (calculation_history db)) as S.
  pose proof (order_by_perm (calculation_history db)) as P.
  destruct (limit <? 0).
  - split; [exact S|]. exists []. rewrite app_nil_r. split; [now symmetry|].
    intros r r' _ [].
  - split; [now apply sorted_firstn|].
    exists (skipn (Z.to_nat limit) (order_by_created_at_desc (calculation_history db))).
    rewrite firstn_skipn. split; [now symmetry|].
    intros r r' Hr Hr'. exact (sorted_split _ _ _ S r r' Hr Hr').
Qed.

Lemma get_history_newest_first_witness :
  exists rows,
    get_history 1
      (mkSession
         [ example_row; CalculationHistory.mk 2 85 20 5 70 65 5 20 EmptyString 2 ] [])
    = Return rows
    /\ StronglySorted
         (fun a b => CalculationHistory.created_at b <= CalculationHistory.created_at a)
         rows.
Proof.
  destruct (get_history_newest_first 1
              (mkSession
                 [ example_row;
                   CalculationHistory.mk 2 85 20 5 70 65 5 20 EmptyString 2 ] [])
              eq_refl)
    as (rows & E & S & _).
  exists rows. split; [exact E|exact S].
Defined.

(** X2. For a limit that is not negative and within the 64-bit integers,
    [get_history] returns [limit] rows, or all of them when the table has
    fewer; with a limit of at least the number of rows it returns the whole
    table, reordered.  For a limit outside the 64-bit integers it fails. *)
Theorem get_history_length limit db :
  0 <= limit ->
  (fits_int64 limit = true ->
   exists rows,
     get_history limit db = Return rows
     /\ List.length rows = Nat.min (Z.to_nat limit) (List.length (calculation_history db))
     /\ (Z.of_nat (List.length (calculation_history db)) <= limit ->
         Permutation rows (calculation_history db)))
  /\ (fits_int64 limit = false -> get_history limit db = OverflowError).
Proof.
  intros H. unfold get_history. split; intros ->; [|reflexivity].
  eexists. split; [reflexivity|]. unfold limit_rows.
  replace (limit <? 0) with false by (symmetry; apply Z.ltb_ge; exact H).
  pose proof (order_by_perm (calculation_history db)) as P.
  rewrite length_firstn, (Permutation_length P). split; [reflexivity|].
  intros L. rewrite firstn_all2; [exact P|].
  rewrite (Permutation_length P). lia.
Qed.

Lemma get_history_length_witness :
  (exists rows,
      get_history 20 (mkSession [example_row] []) = Return rows
      /\ List.length rows = 1%nat)
  /\ get_history (2 ^ 63) (mkSession [example_row] []) = OverflowError.
Proof.
  split.
  - destruct (proj1 (get_history_length 20 (mkSession [example_row] []) ltac:(lia))
                eq_refl)
      as (rows & E & L & _).
    exists rows. split; [exact E|exact L].
  - apply (proj2 (get_history_length (2 ^ 63) (mkSession [example_row] []) ltac:(lia))).
    reflexivity.
Defined.

(** X3. With a limit other than zero and within the 64-bit integers, the
    first row [get_history] returns is as new as the row the latest-row query
    returns (none when the table is empty): the listing starts at the time
    the defaults are read from. *)
Theorem get_history_head_is_latest limit db :
  limit <> 0 ->
  fits_int64 limit = true ->
  exists rows,
    get_history limit db = Return rows
    /\ option_map CalculationHistory.created_at (hd_error rows)
       = option_map CalculationHistory.created_at (latest db).
Proof.
  intros H B. unfold get_history. rewrite B. eexists. split; [reflexivity|].
  unfold limit_rows, latest.
  rewrite <- order_by_head.
  destruct (limit <? 0) eqn:L; [reflexivity|]. apply Z.ltb_ge in L.
  destruct (Z.to_nat limit) as [|n] eqn:N; [lia|].
  destruct (order_by_created_at_desc (calculation_history db)); reflexivity.
Qed.

Lemma get_history_head_is_latest_witness :
  exists rows,
    get_history 20 (mkSession [example_row] []) = Return rows
    /\ option_map CalculationHistory.created_at (hd_error rows) = Some 1.
Proof.
  exact (get_history_head_is_latest 20 (mkSession [example_row] []) ltac:(lia) eq_refl).
Defined.

(** ** The latest status *)

(** X4. [get_latest_status] reports no data exactly when the table is empty;
    otherwise it reports the two amounts [get_defaults] returns and the
    formatted time of a stored row that no row is newer than. *)
Theorem get_latest_status_agrees strftime db :
  match get_latest_status strftime db with
  | NoData => calculation_history db = []
  | HasData others_money my_remaining last_calculation =>
      calculation_history db <> []
      /\ get_defaults db = Defaults.mk others_money my_remaining
      /\ exists r,
          In r (calculation_history db)
          /\ (forall r', In r' (calculation_history db) ->
                         CalculationHistory.created_at r'
                         <= CalculationHistory.created_at r)
          /\ last_calculation = strftime (CalculationHistory.created_at r)
  end.
Proof.
  unfold get_latest_status, get_defaults, latest.
  destruct (latest_of (calculation_history db)) as [r|] eqn:E.
  - split; [intros H; rewrite H in E; discriminate|].
    split; [reflexivity|]. exists r.
    split; [now apply latest_of_In|]. split; [now apply latest_of_newest|reflexivity].
  - now apply latest_of_nil_iff.
Qed.

(** ** The settings *)

Lemma find_setting_update_first now key value rows :
  find (fun s => String.eqb (SavedSettings.key s) key)
    (update_first now key value rows)
  = option_map
      (fun s => SavedSettings.mk (SavedSettings.id s) (SavedSettings.key s) value now)
      (find (fun s => String.eqb (SavedSettings.key s) key) rows).
Proof.
  induction rows as [|s rest IH]; simpl; [reflexivity|].
  destruct (String.eqb (SavedSettings.key s) key) eqn:E; simpl; rewrite E;
    [reflexivity|exact IH].
Qed.

Lemma find_setting_update_other now key value key' rows :
  key' <> key ->
  find (fun s => String.eqb (SavedSettings.key s) key')
    (update_first now key value rows)
  = find (fun s => String.eqb (SavedSettings.key s) key') rows.
Proof.
  intros N. induction rows as [|s rest IH]; simpl; [reflexivity|].
  destruct (String.eqb (SavedSettings.key s) key) eqn:E; simpl.
  - apply String.eqb_eq in E.
    replace (String.eqb (SavedSettings.key s) key') with false
      by (symmetry; apply String.eqb_neq; congruence).
    reflexivity.
  - destruct (String.eqb (SavedSettings.key s) key'); [reflexivity|exact IH].
Qed.

Lemma find_setting_app key rows rows' :
  find (fun s => String.eqb (SavedSettings.key s) key) (rows ++ rows')
  = match find (fun s => String.eqb (SavedSettings.key s) key) rows with
    | Some s => Some s
    | None => find (fun s => String.eqb (SavedSettings.key s) key) rows'
    end.
Proof.
  induction rows as [|s rest IH]; simpl; [reflexivity|].
  destruct (String.eqb (SavedSettings.key s) key); [reflexivity|exact IH].
Qed.

Lemma update_first_keys now key value rows :
  map SavedSettings.key (update_first now key value rows) = map SavedSettings.key rows.
Proof.
  induction rows as [|s rest IH]; simpl; [reflexivity|].
  destruct (String.eqb (SavedSettings.key s) key); simpl; [reflexivity|].
  now rewrite IH.
Qed.

(** X5. A value that is a number, saved under a key, is read back under it
    as the table holds it, 0.0 for -0.0, whatever the table held and whatever
    default the reader names; saving a NaN fails and writes nothing. *)
Theorem save_then_get now db key value default :
  (is_nan value = false ->
   exists db',
     save_value now db key value = (Return tt, db')
     /\ get_saved_value db' key default = stored_float value)
  /\ (is_nan value = true -> save_value now db key value = (IntegrityError, db)).
Proof.
  unfold get_saved_value, save_value, find_setting.
  split; intros ->.
  - destruct (find _ (saved_settings db)) as [s|] eqn:E;
      (eexists; split; [reflexivity|]); cbn [saved_settings].
    + rewrite find_setting_update_first, E. reflexivity.
    + rewrite find_setting_app, E. simpl. rewrite String.eqb_refl. reflexivity.
  - now destruct (find _ (saved_settings db)).
Qed.

Lemma save_then_get_witness :
  (exists db',
      save_value 1 empty_session "a" (-0) = (Return tt, db')
      /\ get_saved_value db' "a" 7 = 0%float)
  /\ save_value 1 empty_session "a" nan = (IntegrityError, empty_session).
Proof.
  split.
  - exact (proj1 (save_then_get 1 empty_session "a" (-0) 7) eq_refl).
  - exact (proj2 (save_then_get 1 empty_session "a" nan 7) eq_refl).
Defined.

(** X6. Saving under one key changes neither what is read under another key
    nor the history table. *)
Theorem save_value_keeps_others now db key value key' default :
  key' <> key ->
  get_saved_value (snd (save_value now db key value)) key' default
  = get_saved_value db key' default
  /\ calculation_history (snd (save_value now db key value)) = calculation_history db.
Proof.
  intros N. unfold get_saved_value, save_value, find_setting.
  destruct (find (fun s => String.eqb (SavedSettings.key s) key) (saved_settings db))
    as [s|] eqn:E; destruct (is_nan value);
    cbn [snd saved_settings calculation_history]; split; try reflexivity.
  - now rewrite find_setting_update_other.
  - rewrite find_setting_app.
    destruct (find (fun s => String.eqb (SavedSettings.key s) key') (saved_settings db));
      [reflexivity|].
    simpl. replace (String.eqb key key') with false
      by (symmetry; apply String.eqb_neq; congruence).
    reflexivity.
Qed.

Lemma save_value_keeps_others_witness :
  get_saved_value (snd (save_value 1 empty_session "a" 5)) "b" 7 = 7%float.
Proof.
  exact (proj1 (save_value_keeps_others 1 empty_session "a" 5 "b" 7 ltac:(discriminate))).
Defined.

(** X7. [save_value] keeps the keys of the settings unique: it adds a row
    only for a number saved under a key that has none, and then exactly
    one. *)
Theorem save_value_unique_keys now db key value :
  unique_keys db ->
  unique_keys (snd (save_value now db key value))
  /\ (find_setting key db = None -> is_nan value = false ->
      List.length (saved_settings (snd (save_value now db key value)))
      = S (List.length (saved_settings db)))
  /\ (find_setting key db <> None \/ is_nan value = true ->
      List.length (saved_settings (snd (save_value now db key value)))
      = List.length (saved_settings db)).
Proof.
  intros U. unfold unique_keys, save_value in *.
  destruct (find_setting key db) as [s|] eqn:E; destruct (is_nan value);
    cbn [snd saved_settings].
  - split; [exact U|]. split; [discriminate|reflexivity].
  - split; [now rewrite update_first_keys|]. split; [discriminate|]. intros _.
    rewrite <- (length_map SavedSettings.key), update_first_keys.
    apply length_map.
  - split; [exact U|]. split; [discriminate|reflexivity].
  - split; [|split].
    + rewrite map_app. simpl. apply NoDup_app; [exact U| |].
      * constructor; [intros []|constructor].
      * intros k Hk [<-|[]]. apply in_map_iff in Hk as (s & Hs & Hin).
        unfold find_setting in E. apply (find_none _ _ E) in Hin.
        apply String.eqb_neq in Hin. contradiction.
    + intros _ _. rewrite length_app. simpl. lia.
    + intros [H|H]; [congruence|discriminate H].
Qed.

Lemma save_value_unique_keys_witness :
  unique_keys (snd (save_value 2 (snd (save_value 1 empty_session "a" 5)) "a" 6))
  /\ List.length
       (saved_settings (snd (save_value 2 (snd (save_value 1 empty_session "a" 5)) "a" 6)))
     = 1%nat.
Proof.
  assert (U : unique_keys (snd (save_value 1 empty_session "a" 5))).
  { unfold unique_keys. simpl. repeat constructor. intros []. }
  destruct (save_value_unique_keys 2 (snd (save_value 1 empty_session "a" 5)) "a" 6 U)
    as (U' & _ & L).
  split; [exact U'|]. rewrite L; [reflexivity|left; discriminate].
Defined.

(** ** Clearing *)

(** X8. After [clear_all_history] every reader sees an empty application:
    the listing is empty, the status has no data, a quick calculation is
    refused for want of history, every saved value reads as its default and
    no key can be deleted; a limit or a key outside the 64-bit integers
    fails as it does on any table. *)
Theorem clear_all_history_resets repr strftime now charge_amount final_total note
        limit key default record_id db :
  let db' := snd (clear_all_history db) in
  get_history limit db' = (if fits_int64 limit then Return [] else OverflowError)
  /\ get_latest_status strftime db' = NoData
  /\ quick_calculate repr now charge_amount final_total note db'
     = (Raise (mkHTTPException 400 detail_no_history), db')
  /\ get_saved_value db' key default = default
  /\ delete_history record_id db'
     = (if fits_int64 record_id
        then (Raise (mkHTTPException 404 detail_not_found), db')
        else (OverflowError, db')).
Proof.
  cbv zeta. unfold clear_all_history. cbn [snd].
  repeat split.
  unfold get_history, limit_rows.
  cbn [calculation_history order_by_created_at_desc fold_right].
  destruct (fits_int64 limit); [|reflexivity].
  destruct (limit <? 0); [reflexivity|]. now destruct (Z.to_nat limit).
Qed.

(** ** What the tables keep true *)

Lemma max_id_nonneg rows : 0 <= max_id rows.
Proof. unfold max_id. induction rows as [|x rest IH]; simpl; lia. Qed.

Lemma stored_row_invariant now data db :
  passes_validation data = true -> row_invariant (stored_row now data db).
Proof.
  intros V. destruct (stored_row_derivation now data db) as (D1 & D2 & D3).
  apply passes_validation_true in V as (V1 & V2 & V3 & V4).
  unfold negative_amount in V1. apply orb_false_iff in V1 as [V1 Pft].
  apply orb_false_iff in V1 as [V1 Pmc]. apply orb_false_iff in V1 as [Pit Pmi].
  unfold row_invariant.
  split; [|split; [exact D1|split; [exact D2|split; [exact D3|]]]].
  - pose proof (max_id_nonneg (calculation_history db)).
    unfold stored_row, stored_record, record_of, next_id.
    cbn [CalculationHistory.id]. lia.
  - unfold stored_row, stored_record, record_of.
    cbn [CalculationHistory.initial_total CalculationHistory.my_initial
         CalculationHistory.my_charge CalculationHistory.final_total
         CalculationHistory.my_remaining CalculationHistory.my_consumed].
    rewrite stored_ltb, !stored_ltb_zero.
    repeat split; assumption.
Qed.

Lemma filter_unique_ids (f : CalculationHistory.t -> bool) rows :
  NoDup (map CalculationHistory.id rows) ->
  NoDup (map CalculationHistory.id (filter f rows)).
Proof.
  induction rows as [|x rest IH]; simpl; intros U; [constructor|].
  inversion U as [|? ? Hx U']; subst. destruct (f x); simpl; [|auto].
  constructor; [|auto]. intros Hin. apply Hx.
  apply in_map_iff in Hin as (y & Hy & Hin). apply filter_In in Hin as [Hin _].
  rewrite <- Hy. now apply in_map.
Qed.

(** One request keeps keys unique and every row consistent. *)
Lemma serve_invariant repr db req :
  unique_ids db -> Forall row_invariant (calculation_history db) ->
  unique_ids (serve repr db req)
  /\ Forall row_invariant (calculation_history (serve repr db req)).
Proof.
  intros U F.
  assert (Calc : forall now data,
             unique_ids (snd (calculate_money repr now data db))
             /\ Forall row_invariant
                  (calculation_history (snd (calculate_money repr now data db)))).
  { intros now data. split; [now apply calculate_money_unique_ids|].
    rewrite calculate_money_tables.
    destruct (passes_validation data) eqn:V; [|exact F].
    destruct (storable data); [|exact F].
    cbn [andb calculation_history].
    apply Forall_app. split; [exact F|]. constructor; [|constructor].
    now apply stored_row_invariant. }
  destruct req as [now data|now c f note|record_id|]; cbn [serve].
  - apply Calc.
  - unfold quick_calculate. destruct (latest db) as [row|]; [apply Calc|now split].
  - unfold delete_history. destruct (fits_int64 record_id); [|now split].
    destruct (find_by_id record_id db) as [record|]; cbn [snd]; [|now split].
    split.
    + unfold unique_ids in *. cbn [calculation_history]. now apply filter_unique_ids.
    + cbn [calculation_history]. rewrite Forall_forall in *. intros r Hr.
      apply filter_In in Hr as [Hr _]. now apply F.
  - split; [constructor|constructor].
Qed.

(** X9. Whatever requests are served, in whatever order, primary keys stay
    unique and positive and every stored row keeps the equations of the data
    model and passes the tests it was stored under: no amount of a stored
    row tests as below zero and [my_initial] does not test as above
    [initial_total]. *)
Theorem serve_all_invariant repr reqs db :
  unique_ids db -> Forall row_invariant (calculation_history db) ->
  unique_ids (serve_all repr reqs db)
  /\ Forall row_invariant (calculation_history (serve_all repr reqs db)).
Proof.
  revert db. induction reqs as [|req reqs IH]; intros db U F; cbn [serve_all fold_left].
  - now split.
  - destruct (serve_invariant repr db req U F) as [U' F']. now apply IH.
Qed.

Lemma serve_all_invariant_witness :
  unique_ids
    (serve_all (fun _ => EmptyString)
       [ PostCalculate 1 example_request; PostQuickCalculate 2 5 70 EmptyString;
         DeleteHistory 1 ] empty_session)
  /\ Forall row_invariant
       (calculation_history
          (serve_all (fun _ => EmptyString)
             [ PostCalculate 1 example_request; PostQuickCalculate 2 5 70 EmptyString;
               DeleteHistory 1 ] empty_session)).
Proof.
  apply (serve_all_invariant (fun _ => EmptyString)
           [ PostCalculate 1 example_request; PostQuickCalculate 2 5 70 EmptyString;
             DeleteHistory 1 ] empty_session).
  - constructor.
  - constructor.
Defined.

Lemma serve_all_cons repr req reqs db :
  serve_all repr (req :: reqs) db = serve_all repr reqs (serve repr db req).
Proof. reflexivity. Qed.

Lemma serve_settings repr db req :
  saved_settings (serve repr db req)
  = match req with DeleteAllHistory => [] | _ => saved_settings db end.
Proof.
  destruct req as [now data|now c f note|record_id|]; cbn [serve].
  - rewrite calculate_money_tables.
    now destruct (passes_validation data && storable data).
  - unfold quick_calculate. destruct (latest db) as [row|]; [|reflexivity].
    rewrite calculate_money_tables.
    now destruct (passes_validation _ && storable _).
  - unfold delete_history. destruct (fits_int64 record_id); [|reflexivity].
    now destruct (find_by_id record_id db).
  - reflexivity.
Qed.

(** X10. No route writes a setting: after any requests the settings table is
    the one before them, or empty once all history was deleted; started
    empty, it stays empty. *)
Theorem settings_never_written repr reqs db :
  (saved_settings (serve_all repr reqs db) = saved_settings db
   \/ saved_settings (serve_all repr reqs db) = [])
  /\ (~ In DeleteAllHistory reqs ->
      saved_settings (serve_all repr reqs db) = saved_settings db)
  /\ saved_settings (serve_all repr reqs empty_session) = [].
Proof.
  assert (G : forall reqs db,
             (saved_settings (serve_all repr reqs db) = saved_settings db
              \/ saved_settings (serve_all repr reqs db) = [])
             /\ (~ In DeleteAllHistory reqs ->
                 saved_settings (serve_all repr reqs db) = saved_settings db)).
  { clear. induction reqs as [|req reqs IH]; intros db.
    - split; auto.
    - rewrite serve_all_cons.
      destruct (IH (serve repr db req)) as [[E|E] N]; rewrite serve_settings in *.
      + split.
        * rewrite E. destruct req; auto.
        * intros H. rewrite N by (intros H'; apply H; now right).
          destruct req; try reflexivity. exfalso. apply H. now left.
      + split; [now right|]. intros H.
        rewrite N by (intros H'; apply H; now right).
        destruct req; try reflexivity. exfalso. apply H. now left. }
  split; [apply G|]. split; [apply G|].
  destruct (proj1 (G reqs empty_session)) as [E|E]; exact E.
Qed.

(** ** A calculation and what is read after it *)

(** X11. The id a successful [calculate_money] answers with is the key of the
    row it stored: a positive key above every key already in the table.  The
    row holds the four amounts of the request as the table holds them, 0.0
    for -0.0, the time of the insert and the note, an absent note as the
    empty string. *)
Theorem calculate_money_fresh_id repr now data db res db' :
  calculate_money repr now data db = (Return res, db') ->
  exists rec,
    calculation_history db' = (calculation_history db ++ [rec])%list
    /\ CalculationResult.id res = Some (CalculationHistory.id rec)
    /\ CalculationResult.created_at res = Some (CalculationHistory.created_at rec)
    /\ CalculationHistory.created_at rec = now
    /\ 0 < CalculationHistory.id rec
    /\ (forall r, In r (calculation_history db) ->
                  CalculationHistory.id r < CalculationHistory.id rec)
    /\ CalculationHistory.initial_total rec
       = stored_float (CardCalculation.initial_total data)
    /\ CalculationHistory.my_initial rec = stored_float (CardCalculation.my_initial data)
    /\ CalculationHistory.my_charge rec = stored_float (CardCalculation.my_charge data)
    /\ CalculationHistory.final_total rec
       = stored_float (CardCalculation.final_total data)
    /\ CalculationHistory.note rec
       = match CardCalculation.note data with Some s => s | None => EmptyString end.
Proof.
  intros H. apply calculate_money_stores in H as (_ & _ & -> & ->).
  exists (stored_row now data db).
  unfold stored_row, stored_record, record_of.
  cbn [calculation_history CalculationResult.id CalculationResult.created_at
       CalculationHistory.id CalculationHistory.created_at
       CalculationHistory.initial_total CalculationHistory.my_initial
       CalculationHistory.my_charge CalculationHistory.final_total
       CalculationHistory.note].
  pose proof (max_id_nonneg (calculation_history db)). unfold next_id.
  repeat split; try lia.
  intros r Hr. apply max_id_ge in Hr. lia.
Qed.

Lemma calculate_money_fresh_id_witness :
  exists rec,
    [ example_row; CalculationHistory.mk 2 85 20 5 70 65 5 20 EmptyString 2 ]
    = ([example_row] ++ [rec])%list
    /\ CalculationHistory.id rec = 2.
Proof.
  destruct (calculate_money_fresh_id (fun _ => EmptyString) 2
              (CardCalculation.mk 85 20 5 70 None) (mkSession [example_row] [])
              (CalculationResult.mk (Some 2) 65 5 20
                 (trace (fun _ => EmptyString) (CardCalculation.mk 85 20 5 70 None))
                 (Some 2))
              (mkSession
                 [ example_row; CalculationHistory.mk 2 85 20 5 70 65 5 20 EmptyString 2 ]
                 [])
              eq_refl)
    as (rec & E & I & _).
  exists rec. split; [exact E|]. cbn in I. now injection I as <-.
Defined.

(** The latest row after a row is appended. *)
Lemma latest_of_app rows r :
  latest_of (rows ++ [r])
  = match latest_of rows with
    | None => Some r
    | Some m =>
        if CalculationHistory.created_at m <? CalculationHistory.created_at r
        then Some r else Some m
    end.
Proof.
  induction rows as [|x rest IH]; [reflexivity|].
  cbn [app latest_of]. rewrite IH.
  destruct (latest_of rest) as [m|].
  - destruct (CalculationHistory.created_at m <? CalculationHistory.created_at r) eqn:A;
      destruct (CalculationHistory.created_at x <? CalculationHistory.created_at m) eqn:B;
      try rewrite A;
      destruct (CalculationHistory.created_at x <? CalculationHistory.created_at r) eqn:C;
      try reflexivity;
      repeat match goal with
             | H : (_ <? _) = true |- _ => apply Z.ltb_lt in H
             | H : (_ <? _) = false |- _ => apply Z.ltb_ge in H
             end; lia.
  - reflexivity.
Qed.

Lemma latest_after_insert rows r :
  (forall x, In x rows ->
             CalculationHistory.created_at x < CalculationHistory.created_at r) ->
  latest_of (rows ++ [r]) = Some r.
Proof.
  intros H. rewrite latest_of_app. destruct (latest_of rows) as [m|] eqn:E; [|reflexivity].
  apply latest_of_In in E. specialize (H m E).
  apply Z.ltb_lt in H. now rewrite H.
Qed.

(** X12. After a successful calculation at a time later than every stored
    row, the stored row is the latest: [get_defaults] returns the
    [others_money] and [my_remaining] just answered, as the table holds them,
    0.0 for -0.0.  After one at a time earlier than some stored row, the
    latest row is still the one before. *)
Theorem calculate_money_then_defaults repr now data db res db' :
  calculate_money repr now data db = (Return res, db') ->
  ((forall r, In r (calculation_history db) -> CalculationHistory.created_at r < now) ->
   get_defaults db'
   = Defaults.mk (stored_float (CalculationResult.others_money res))
       (stored_float (CalculationResult.my_remaining res)))
  /\ ((exists r, In r (calculation_history db) /\ now < CalculationHistory.created_at r) ->
      latest db' = latest db).
Proof.
  intros H. apply calculate_money_stores in H as (_ & _ & -> & ->).
  unfold get_defaults, latest. cbn [calculation_history]. split.
  - intros N. rewrite latest_after_insert; [reflexivity|exact N].
  - intros (r & Hr & L). rewrite latest_of_app.
    destruct (latest_of (calculation_history db)) as [m|] eqn:E.
    + pose proof (latest_of_newest _ _ E r Hr) as M.
      replace (CalculationHistory.created_at m
               <? CalculationHistory.created_at (stored_row now data db)) with false;
        [reflexivity|].
      symmetry. apply Z.ltb_ge. cbn. lia.
    + apply latest_of_nil_iff in E. rewrite E in Hr. contradiction.
Qed.

Lemma calculate_money_then_defaults_witness :
  get_defaults (mkSession [example_row] []) = Defaults.mk 60 20.
Proof.
  apply (proj1 (calculate_money_then_defaults (fun _ => EmptyString) 1 example_request
                  empty_session
                  (CalculationResult.mk (Some 1) 60 20 30
                     (trace (fun _ => EmptyString) example_request) (Some 1))
                  (mkSession [example_row] []) eq_refl)).
  intros r [].
Defined.

(** ** Chains of calculations *)

(** The share of the others is at least zero when [my_initial] is finite and
    not above a total that is a number. *)
Lemma derived_others_nonneg it mi :
  is_nan it = false -> is_finite mi = true ->
  (it <? 0)%float = false -> (mi <? 0)%float = false -> (it <? mi)%float = false ->
  (0 <=? it - mi)%float = true.
Proof.
  intros Nit Fmi Pit Pmi Hex.
  pose proof (nonneg_of_ltb it Pit Nit) as Git.
  pose proof (nonneg_of_ltb mi Pmi (is_finite_not_nan _ Fmi)) as Gmi.
  apply is_finite_Prim2SF in Fmi. apply leb_zero_nonneg.
  unfold nonneg64. rewrite sub_Prim2SF.
  destruct (Format.finite_or_zero (Prim2SF it)) eqn:Fit.
  - rewrite (ltb_ord it mi Git Gmi) in Hex. apply Z.ltb_ge in Hex.
    destruct (SFsub_nonneg prec emax prec_pos64
                (Prim2SF it) (Prim2SF mi) (Prim2SF_valid _) (Prim2SF_valid _)
                Git Gmi Fit Fmi) as (_ & _ & Ho).
    exact (proj1 (Ho Hex)).
  - unfold nonneg64 in Git. apply not_nan_Prim2SF in Nit.
    destruct (Prim2SF it) as [s|[|]| |[|] m e]; try discriminate; try contradiction.
    destruct (Prim2SF mi) as [s1|s1| |s1 m1 e1]; try discriminate Fmi; reflexivity.
Qed.

(** X13. After a successful calculation on finite amounts, at a time later
    than every stored row, a quick calculation with a charge of at least zero
    is never refused for [my_initial] above [initial_total], and is refused
    for a negative amount only when its [final_total] is negative. *)
Theorem calculate_then_quick_calculate repr now data db res db' now' charge_amount
        final_total note :
  calculate_money repr now data db = (Return res, db') ->
  finite_request data = true ->
  (forall r, In r (calculation_history db) -> CalculationHistory.created_at r < now) ->
  (0 <=? charge_amount)%float = true ->
  fst (quick_calculate repr now' charge_amount final_total note db')
  <> Raise (mkHTTPException 400 detail_initial_exceeds)
  /\ (fst (quick_calculate repr now' charge_amount final_total note db')
      = Raise (mkHTTPException 400 detail_negative_amount) ->
      (final_total <? 0)%float = true).
Proof.
  intros H F N Hc. apply calculate_money_stores in H as (V & S & _ & ->).
  assert (L : latest (mkSession (calculation_history db ++ [stored_row now data db])
                        (saved_settings db)) = Some (stored_row now data db)).
  { unfold latest. cbn [calculation_history]. apply latest_after_insert. exact N. }
  rewrite (quick_calculate_delegates _ _ _ _ _ _ _ L).
  set (next := quick_request (stored_row now data db) charge_amount final_total note).
  unfold finite_request in F. rewrite !andb_true_iff in F.
  destruct F as [[[Fit Fmi] Fmc] Fft].
  destruct (stored_row_amounts now data db V S) as [Hr _].
  pose proof V as V'. apply passes_validation_true in V' as (V1 & V2 & _).
  unfold negative_amount in V1. apply orb_false_iff in V1 as [V1 _].
  apply orb_false_iff in V1 as [V1 _]. apply orb_false_iff in V1 as [Pit Pmi].
  pose proof (derived_others_nonneg _ _ (is_finite_not_nan _ Fit) Fmi Pit Pmi V2) as Ho.
  rewrite <- stored_leb_zero in Ho.
  destruct (quick_amounts_pass _ _ _ Ho Hr Hc) as (P1 & P2 & P3 & P4).
  assert (E : initial_exceeds next = false) by exact P4.
  assert (G : negative_amount next = (final_total <? 0)%float).
  { assert (Q1 : (CardCalculation.initial_total next <? 0)%float = false) by exact P1.
    assert (Q2 : (CardCalculation.my_initial next <? 0)%float = false) by exact P2.
    assert (Q3 : (CardCalculation.my_charge next <? 0)%float = false) by exact P3.
    unfold negative_amount. rewrite Q1, Q2, Q3. reflexivity. }
  rewrite calculate_money_unfold, G, E.
  destruct (final_total <? 0)%float; cbn [fst].
  - split; [|reflexivity]. intros K. injection K as K. discriminate K.
  - destruct (negative_remaining next); cbn [fst];
      [split; intros K; injection K as K; discriminate K|].
    destruct (negative_consumed next); cbn [fst];
      [split; intros K; injection K as K; discriminate K|].
    unfold store_and_answer. destruct (storable next); cbn [fst];
      split; intros K; discriminate K.
Qed.

Lemma calculate_then_quick_calculate_witness :
  fst (quick_calculate (fun _ => EmptyString) 2 5 70 EmptyString
         (mkSession [example_row] []))
  <> Raise (mkHTTPException 400 detail_initial_exceeds).
Proof.
  exact (proj1 (calculate_then_quick_calculate (fun _ => EmptyString) 1 example_request
                  empty_session
                  (CalculationResult.mk (Some 1) 60 20 30
                     (trace (fun _ => EmptyString) example_request) (Some 1))
                  (mkSession [example_row] []) 2 5 70 EmptyString
                  eq_refl eq_refl (fun r (H : In r []) => match H with end) eq_refl)).
Defined.

(** A value that is at least zero is a number. *)
Lemma leb_zero_not_nan x : (0 <=? x)%float = true -> is_nan x = false.
Proof.
  intros H. apply leb_zero_nonneg in H. unfold nonneg64 in H.
  destruct (is_nan x) eqn:E; [|reflexivity].
  apply is_nan_Prim2SF in E. rewrite E in H. discriminate H.
Qed.

(** X18. On finite amounts the insert cannot fail: a request whose four
    amounts are finite and which passes the four tests has no NaN among its
    derived values, so [calculate_money] returns and stores one row; on
    finite amounts it either raises one of its four errors or returns. *)
Theorem finite_request_is_stored repr now data db :
  finite_request data = true ->
  (passes_validation data = true ->
   storable data = true
   /\ exists res rec,
       calculate_money repr now data db
       = (Return res,
          mkSession (calculation_history db ++ [rec]) (saved_settings db)))
  /\ fst (calculate_money repr now data db) <> IntegrityError
  /\ fst (calculate_money repr now data db) <> OverflowError.
Proof.
  intros F.
  assert (S : passes_validation data = true -> storable data = true).
  { intros V. unfold finite_request in F. rewrite !andb_true_iff in F.
    destruct F as [[[Fit Fmi] Fmc] Fft].
    apply passes_validation_true in V as (V1 & V2 & V3 & V4).
    unfold negative_amount in V1. apply orb_false_iff in V1 as [V1 Pft].
    apply orb_false_iff in V1 as [V1 Pmc]. apply orb_false_iff in V1 as [Pit Pmi].
    pose proof (derived_others_nonneg _ _ (is_finite_not_nan _ Fit) Fmi Pit Pmi V2)
      as Ho.
    destruct (derived_amounts_nonneg _ _ _ _ (is_finite_not_nan _ Fit) Fmi Fmc Fft
                Pit Pmi Pmc Pft V2 V3 V4) as [Hr Hc].
    unfold storable.
    rewrite (is_finite_not_nan _ Fit), (is_finite_not_nan _ Fmi),
      (is_finite_not_nan _ Fmc), (is_finite_not_nan _ Fft).
    unfold derived_my_consumed, derived_my_remaining, derived_my_after_charge,
      derived_others_money.
    now rewrite (leb_zero_not_nan _ Ho), (leb_zero_not_nan _ Hr),
      (leb_zero_not_nan _ Hc). }
  split; [|split].
  - intros V. split; [exact (S V)|].
    rewrite (calculate_money_storable repr now data db V (S V)). eauto.
  - destruct (passes_validation data) eqn:V.
    + rewrite (calculate_money_storable repr now data db V (S eq_refl)). discriminate.
    + destruct (calculate_money_invalid repr now data db V) as [e ->]. discriminate.
  - destruct (passes_validation data) eqn:V.
    + rewrite (calculate_money_storable repr now data db V (S eq_refl)). discriminate.
    + destruct (calculate_money_invalid repr now data db V) as [e ->]. discriminate.
Qed.

Lemma finite_request_is_stored_witness :
  storable example_request = true
  /\ exists res rec,
      calculate_money (fun _ => EmptyString) 1 example_request empty_session
      = (Return res, mkSession ([] ++ [rec]) []).
Proof.
  exact (proj1 (finite_request_is_stored (fun _ => EmptyString) 1 example_request
                  empty_session eq_refl) eq_refl).
Defined.

(** X15. The row a successful quick calculation stores, read against the
    latest row before it, each amount as the table holds it, 0.0 for -0.0:
    [my_initial] is the latest [my_remaining], [initial_total] is the latest
    [others_money] and [my_remaining] and the charge added up, and
    [others_money] is that total less [my_initial], the value answered. *)
Theorem quick_calculate_stored_row repr now charge_amount final_total note db
        latest_row res db' :
  latest db = Some latest_row ->
  quick_calculate repr now charge_amount final_total note db = (Return res, db') ->
  let o := CalculationHistory.others_money latest_row in
  let b := CalculationHistory.my_remaining latest_row in
  exists rec,
    calculation_history db' = (calculation_history db ++ [rec])%list
    /\ CalculationHistory.initial_total rec = stored_float ((o + b) + charge_amount)
    /\ CalculationHistory.my_initial rec = stored_float b
    /\ CalculationHistory.my_charge rec = stored_float charge_amount
    /\ CalculationHistory.final_total rec = stored_float final_total
    /\ CalculationHistory.others_money rec
       = stored_float (((o + b) + charge_amount) - b)
    /\ CalculationHistory.others_money rec
       = stored_float (CalculationResult.others_money res)
    /\ CalculationHistory.note rec = note
    /\ CalculationHistory.created_at rec = now.
Proof.
  intros Hl H. rewrite (quick_calculate_delegates _ _ _ _ _ _ _ Hl) in H.
  apply calculate_money_stores in H as (_ & _ & -> & ->).
  eexists. split; [reflexivity|]. repeat split.
Qed.

Lemma quick_calculate_stored_row_witness :
  exists rec,
    [ example_row; CalculationHistory.mk 2 85 20 5 70 65 5 20 EmptyString 2 ]
    = ([example_row] ++ [rec])%list
    /\ CalculationHistory.others_money rec = stored_float (((60 + 20) + 5) - 20).
Proof.
  destruct (quick_calculate_stored_row (fun _ => EmptyString) 2 5 70 EmptyString
              (mkSession [example_row] []) example_row
              (CalculationResult.mk (Some 2) 65 5 20
                 (trace (fun _ => EmptyString)
                    (quick_request example_row 5 70 EmptyString))
                 (Some 2))
              (mkSession
                 [ example_row; CalculationHistory.mk 2 85 20 5 70 65 5 20 EmptyString 2 ]
                 [])
              eq_refl eq_refl)
    as (rec & E & _ & _ & _ & _ & O & _).
  exists rec. split; [exact E|exact O].
Defined.

(** ** Deleting, again *)

Lemma find_filter_other k k' rows :
  k' <> k ->
  find (fun r => CalculationHistory.id r =? k')
    (filter (fun r => negb (CalculationHistory.id r =? k)) rows)
  = find (fun r => CalculationHistory.id r =? k') rows.
Proof.
  intros N. induction rows as [|x rest IH]; simpl; [reflexivity|].
  destruct (CalculationHistory.id x =? k) eqn:A; simpl.
  - apply Z.eqb_eq in A.
    replace (CalculationHistory.id x =? k') with false
      by (symmetry; apply Z.eqb_neq; lia).
    exact IH.
  - destruct (CalculationHistory.id x =? k'); [reflexivity|exact IH].
Qed.

Lemma find_filter_same k rows :
  find (fun r => CalculationHistory.id r =? k)
    (filter (fun r => negb (CalculationHistory.id r =? k)) rows) = None.
Proof.
  induction rows as [|x rest IH]; simpl; [reflexivity|].
  destruct (CalculationHistory.id x =? k) eqn:A; simpl; [exact IH|].
  rewrite A. exact IH.
Qed.

(** X14. Once a key is deleted, deleting it again raises the 404 error and
    changes nothing; the rows of every other key are found as before. *)
Theorem delete_history_twice record_id db message db' :
  delete_history record_id db = (Return message, db') ->
  delete_history record_id db' = (Raise (mkHTTPException 404 detail_not_found), db')
  /\ (forall other, other <> record_id -> find_by_id other db' = find_by_id other db).
Proof.
  unfold delete_history. intros H.
  destruct (fits_int64 record_id); [|discriminate H].
  destruct (find_by_id record_id db) as [record|] eqn:E; [|discriminate H].
  apply find_by_id_Some in E as [_ Hid]. injection H as _ <-.
  unfold find_by_id. cbn [calculation_history]. rewrite Hid. split.
  - now rewrite find_filter_same.
  - intros other N. now apply find_filter_other.
Qed.

Lemma delete_history_twice_witness :
  delete_history 1 empty_session
  = (Raise (mkHTTPException 404 detail_not_found), empty_session).
Proof.
  exact (proj1 (delete_history_twice 1 (mkSession [example_row] []) message_deleted
                  empty_session eq_refl)).
Defined.

(** ** The errors *)

(** X16. How the three writing handlers fail.  [calculate_money] raises only
    status 400 with one of its four messages, and fails with
    [IntegrityError] only on a request that passed the four tests with a NaN
    among its amounts; [quick_calculate] raises only those and the no-history
    message; neither fails with [OverflowError].  [delete_history] raises
    only status 404 with the not-found message, and only for a key within the
    64-bit integers; it fails with [OverflowError] exactly for a key outside
    them, and never with [IntegrityError].  A handler that does not return
    leaves both tables as they were. *)
Theorem errors_raised repr now data charge_amount final_total note record_id db :
  (forall e db', calculate_money repr now data db = (Raise e, db') ->
     db' = db /\ status_code e = 400
     /\ In (detail e) [ detail_negative_amount; detail_initial_exceeds;
                        detail_negative_remaining; detail_negative_consumed ])
  /\ (forall db', calculate_money repr now data db = (IntegrityError, db') ->
        db' = db /\ passes_validation data = true /\ storable data = false)
  /\ fst (calculate_money repr now data db) <> OverflowError
  /\ (forall e db',
        quick_calculate repr now charge_amount final_total note db = (Raise e, db') ->
        db' = db /\ status_code e = 400
        /\ In (detail e) [ detail_no_history; detail_negative_amount;
                           detail_initial_exceeds; detail_negative_remaining;
                           detail_negative_consumed ])
  /\ (forall db',
        quick_calculate repr now charge_amount final_total note db
        = (IntegrityError, db') ->
        db' = db
        /\ exists latest_row,
            latest db = Some latest_row
            /\ storable (quick_request latest_row charge_amount final_total note)
               = false)
  /\ fst (quick_calculate repr now charge_amount final_total note db) <> OverflowError
  /\ (forall e db', delete_history record_id db = (Raise e, db') ->
        db' = db /\ e = mkHTTPException 404 detail_not_found
        /\ fits_int64 record_id = true)
  /\ (fst (delete_history record_id db) = OverflowError <-> fits_int64 record_id = false)
  /\ fst (delete_history record_id db) <> IntegrityError
  /\ (is_return (fst (calculate_money repr now data db)) = false ->
      snd (calculate_money repr now data db) = db)
  /\ (is_return (fst (quick_calculate repr now charge_amount final_total note db))
      = false ->
      snd (quick_calculate repr now charge_amount final_total note db) = db)
  /\ (is_return (fst (delete_history record_id db)) = false ->
      snd (delete_history record_id db) = db).
Proof.
  assert (Calc : forall data,
             (forall e db', calculate_money repr now data db = (Raise e, db') ->
                db' = db /\ status_code e = 400
                /\ In (detail e) [ detail_negative_amount; detail_initial_exceeds;
                                   detail_negative_remaining; detail_negative_consumed ])
             /\ (forall db', calculate_money repr now data db = (IntegrityError, db') ->
                   db' = db /\ passes_validation data = true /\ storable data = false)
             /\ fst (calculate_money repr now data db) <> OverflowError
             /\ (is_return (fst (calculate_money repr now data db)) = false ->
                 snd (calculate_money repr now data db) = db)).
  { intros d. rewrite calculate_money_unfold.
    unfold passes_validation, store_and_answer.
    destruct (negative_amount d);
      [repeat split; intros; try discriminate;
       match goal with H : (_, _) = (_, _) |- _ => injection H as <- <- end;
       simpl; tauto|].
    destruct (initial_exceeds d);
      [repeat split; intros; try discriminate;
       match goal with H : (_, _) = (_, _) |- _ => injection H as <- <- end;
       simpl; tauto|].
    destruct (negative_remaining d);
      [repeat split; intros; try discriminate;
       match goal with H : (_, _) = (_, _) |- _ => injection H as <- <- end;
       simpl; tauto|].
    destruct (negative_consumed d);
      [repeat split; intros; try discriminate;
       match goal with H : (_, _) = (_, _) |- _ => injection H as <- <- end;
       simpl; tauto|].
    destruct (storable d); repeat split; intros; try discriminate;
      match goal with H : (_, _) = (_, _) |- _ => injection H as <- end;
      reflexivity. }
  destruct (Calc data) as (C1 & C2 & C3 & C4).
  split; [exact C1|]. split; [exact C2|]. split; [exact C3|].
  assert (Quick :
            (forall e db',
                quick_calculate repr now charge_amount final_total note db
                = (Raise e, db') ->
                db' = db /\ status_code e = 400
                /\ In (detail e) [ detail_no_history; detail_negative_amount;
                                   detail_initial_exceeds; detail_negative_remaining;
                                   detail_negative_consumed ])
            /\ (forall db',
                   quick_calculate repr now charge_amount final_total note db
                   = (IntegrityError, db') ->
                   db' = db
                   /\ exists latest_row,
                       latest db = Some latest_row
                       /\ storable
                            (quick_request latest_row charge_amount final_total note)
                          = false)
            /\ fst (quick_calculate repr now charge_amount final_total note db)
               <> OverflowError
            /\ (is_return
                  (fst (quick_calculate repr now charge_amount final_total note db))
                = false ->
                snd (quick_calculate repr now charge_amount final_total note db) = db)).
  { unfold quick_calculate. destruct (latest db) as [row|].
    - destruct (Calc (quick_request row charge_amount final_total note))
        as (Q1 & Q2 & Q3 & Q4).
      split; [|split; [|split; [exact Q3|exact Q4]]].
      + intros e db' H. destruct (Q1 e db' H) as (D & S & I).
        split; [exact D|]. split; [exact S|]. now right.
      + intros db' H. destruct (Q2 db' H) as (D & _ & S).
        split; [exact D|]. exists row. auto.
    - split; [|split; [|split]]; try discriminate.
      + intros e db' H. injection H as <- <-. simpl. tauto.
      + reflexivity. }
  destruct Quick as (Q1 & Q2 & Q3 & Q4).
  split; [exact Q1|]. split; [exact Q2|]. split; [exact Q3|].
  split; [|split; [|split; [|split; [exact C4|split; [exact Q4|]]]]].
  - intros e db' H. unfold delete_history in H.
    destruct (fits_int64 record_id); [|discriminate H].
    destruct (find_by_id record_id db); [discriminate H|].
    injection H as <- <-. auto.
  - unfold delete_history. destruct (fits_int64 record_id).
    + destruct (find_by_id record_id db); cbn [fst]; split; discriminate.
    + cbn [fst]. split; reflexivity.
  - unfold delete_history.
    destruct (fits_int64 record_id); [destruct (find_by_id record_id db)|];
      discriminate.
  - unfold delete_history.
    destruct (fits_int64 record_id); [destruct (find_by_id record_id db)|];
      cbn [fst snd is_return]; intros; try discriminate; reflexivity.
Qed.

(** ** Owning all of the card, or none of it *)

(** Subtracting zero changes nothing, and a finite number less itself is zero. *)
Lemma sub_zero_r x : (x - 0)%float = x.
Proof.
  apply Prim2SF_inj. rewrite sub_Prim2SF, Prim2SF_zero.
  destruct (Prim2SF x) as [[|]|[|]| |s m e]; reflexivity.
Qed.

Lemma sub_diag x : is_finite x = true -> (x - x)%float = 0%float.
Proof.
  intros F. apply is_finite_Prim2SF in F.
  apply Prim2SF_inj. rewrite sub_Prim2SF, Prim2SF_zero.
  destruct (Prim2SF x) as [[|]|s| |s m e]; try discriminate F; try reflexivity.
  cbn [SFsub]. rewrite Z.sub_diag. reflexivity.
Qed.

(** X17. The two ends of the split.  When [my_initial] is the whole finite
    [initial_total], the answer has [others_money] zero and [my_remaining]
    the [final_total]; when [my_initial] is zero, [others_money] is the
    [initial_total]. *)
Theorem calculate_money_whole_or_none repr now data db res db' :
  calculate_money repr now data db = (Return res, db') ->
  (CardCalculation.my_initial data = CardCalculation.initial_total data ->
   is_finite (CardCalculation.initial_total data) = true ->
   CalculationResult.others_money res = 0%float
   /\ CalculationResult.my_remaining res = CardCalculation.final_total data)
  /\ (CardCalculation.my_initial data = 0%float ->
      CalculationResult.others_money res = CardCalculation.initial_total data).
Proof.
  intros H. apply calculate_money_stores in H as (_ & _ & -> & _).
  cbn [CalculationResult.others_money CalculationResult.my_remaining].
  unfold derived_my_remaining, derived_others_money. split.
  - intros E F. rewrite E, (sub_diag _ F), sub_zero_r. auto.
  - intros E. rewrite E. apply sub_zero_r.
Qed.

Lemma calculate_money_whole_or_none_witness :
  exists res db',
    calculate_money (fun _ => EmptyString) 1
      (CardCalculation.mk 100 100 0 30 None) empty_session = (Return res, db')
    /\ CalculationResult.others_money res = 0%float
    /\ CalculationResult.my_remaining res = 30%float.
Proof.
  eexists. eexists. split; [reflexivity|].
  apply (proj1 (calculate_money_whole_or_none (fun _ => EmptyString) 1
                  (CardCalculation.mk 100 100 0 30 None) empty_session
                  _ _ eq_refl));
    reflexivity.
Defined.
